(** * importer.py: the text-alignment core of the Omnivore importer

    A shallow embedding of the functions of [src/importer.py] that flatten
    HTML to text, locate an excerpt, remap the span, inject the highlight
    markers, reconcile quotes and parse the note file.

    Conventions.
    - A Python [str] is a [list ascii]: the characters are restricted to
      ASCII.  [py "..."] writes a literal.
    - Python integers are [Z] where the source computes with values that can
      be negative (window sizes, [len(...) - 1], index [-1]); offsets into
      the HTML source, which only grow from [0], are [nat].
    - A Python float holding a similarity ratio is an exact rational [Q].
    - A raised exception is the [Raise] case of [result].
    - [bs4], [markdown] and [difflib] are libraries, not code of this
      repository.  The parsed tree [BeautifulSoup(html, 'html.parser')] is
      an argument ([soup]) of the functions that parse; the plain text of
      the rendered Markdown is an argument ([md_text]);
      [SequenceMatcher(None, a, b).ratio()] is an argument ([ratio]), with
      [Difflib.ratio] a model of CPython's implementation for evaluating
      concrete inputs. *)

From Stdlib Require Import String List Ascii ZArith QArith Lia Bool Sorted.
Import ListNotations.

Open Scope Z_scope.
Set Warnings "-register-all".

(** ** Python built-ins *)

Module Py.

Definition str := list ascii.

Definition py (s : string) : str := list_ascii_of_string s.
Arguments py s%_string.

Inductive exn := IndexError | ValueError (msg : str).

Inductive result (A : Type) : Type :=
| OK (a : A)
| Raise (e : exn).
Arguments OK {A} a.
Arguments Raise {A} e.

Definition bind {A B} (m : result A) (k : A -> result B) : result B :=
  match m with
  | OK a => k a
  | Raise e => Raise e
  end.

Definition len {A} (l : list A) : Z := Z.of_nat (length l).

(** [c.isspace()] on the ASCII range: TAB, LF, VT, FF, CR, the four
    separators FS, GS, RS, US, and the space. *)
Definition isspace (c : ascii) : bool :=
  let n := nat_of_ascii c in
  ((9 <=? n)%nat && (n <=? 13)%nat) || ((28 <=? n)%nat && (n <=? 32)%nat).

(** [c.isalnum()] on the ASCII range. *)
Definition isalnum (c : ascii) : bool :=
  let n := nat_of_ascii c in
  ((48 <=? n)%nat && (n <=? 57)%nat) || ((65 <=? n)%nat && (n <=? 90)%nat)
  || ((97 <=? n)%nat && (n <=? 122)%nat).

Definition lower_char (c : ascii) : ascii :=
  let n := nat_of_ascii c in
  if ((65 <=? n)%nat && (n <=? 90)%nat) then ascii_of_nat (n + 32) else c.

(** [s.lower()] *)
Definition lower (s : str) : str := map lower_char s.

Fixpoint lstrip_by (p : ascii -> bool) (s : str) : str :=
  match s with
  | [] => []
  | c :: s' => if p c then lstrip_by p s' else s
  end.

Definition rstrip_by (p : ascii -> bool) (s : str) : str :=
  rev (lstrip_by p (rev s)).

(** [s.strip()] *)
Definition strip (s : str) : str := rstrip_by isspace (lstrip_by isspace s).

(** [s.lstrip(chars)]: drops every leading character that belongs to
    [chars]. *)
Definition lstrip (chars : str) (s : str) : str :=
  lstrip_by (fun c => existsb (Ascii.eqb c) chars) s.

(** [s.startswith(prefix)] *)
Fixpoint startswith (s prefix : str) {struct prefix} : bool :=
  match prefix, s with
  | [], _ => true
  | _ :: _, [] => false
  | p :: prefix', c :: s' => Ascii.eqb c p && startswith s' prefix'
  end.

(** [s.find(sub)]: the lowest index where [sub] occurs, [None] for [-1].
    [sub in s] is [find s sub <> None] and, when it holds, [s.index(sub)]
    is that index. *)
Fixpoint find (s sub : str) : option nat :=
  if startswith s sub then Some O
  else match s with
       | [] => None
       | _ :: s' => option_map S (find s' sub)
       end.

(** [s.split()]: the maximal runs of non-whitespace characters. *)
Fixpoint split_ws_from (cur : str) (s : str) : list str :=
  match s with
  | [] => match cur with [] => [] | _ => [rev cur] end
  | c :: s' =>
      if isspace c
      then match cur with
           | [] => split_ws_from [] s'
           | _ => rev cur :: split_ws_from [] s'
           end
      else split_ws_from (c :: cur) s'
  end.

Definition split (s : str) : list str := split_ws_from [] s.

(** [s.split(sep)] for a one-character separator. *)
Fixpoint split_on (sep : ascii) (s : str) : list str :=
  match s with
  | [] => [[]]
  | c :: s' =>
      if Ascii.eqb c sep then [] :: split_on sep s'
      else match split_on sep s' with
           | [] => [[c]]
           | h :: t => (c :: h) :: t
           end
  end.

(** [sep.join(l)] *)
Fixpoint join (sep : str) (l : list str) : str :=
  match l with
  | [] => []
  | x :: rest =>
      match rest with
      | [] => x
      | _ :: _ => x ++ sep ++ join sep rest
      end
  end.

(** [l[i]] with Python's negative indices and its [IndexError]. *)
Definition getitem {A} (l : list A) (i : Z) : result A :=
  let j := if i <? 0 then i + len l else i in
  if (0 <=? j) && (j <? len l)
  then match nth_error l (Z.to_nat j) with
       | Some x => OK x
       | None => Raise IndexError
       end
  else Raise IndexError.

Definition slice_bound (n i : Z) : Z :=
  if i <? 0 then Z.max 0 (i + n) else Z.min i n.

(** [l[lo:hi]] with Python's negative and out-of-range bounds. *)
Definition slice {A} (l : list A) (lo hi : Z) : list A :=
  let a := slice_bound (len l) lo in
  let b := slice_bound (len l) hi in
  firstn (Z.to_nat (b - a)) (skipn (Z.to_nat a) l).

(** [range(n)] *)
Definition range (n : Z) : list Z := map Z.of_nat (seq 0 (Z.to_nat n)).

(** [html.escape(s)] with its default [quote=True]. *)
Definition escape_char (c : ascii) : str :=
  if Ascii.eqb c "&" then py "&amp;"
  else if Ascii.eqb c "<" then py "&lt;"
  else if Ascii.eqb c ">" then py "&gt;"
  else if Ascii.eqb c "034" then py "&quot;"
  else if Ascii.eqb c "'" then py "&#x27;"
  else [c].

Definition escape (s : str) : str := flat_map escape_char s.

(** [re.split(r'\n\n+', s)]: [s] cut at every maximal run of two or more
    line feeds.  [in_run] holds while such a run is being consumed. *)
Fixpoint re_split_blank (in_run : bool) (s : str) : list str :=
  match s with
  | [] => [[]]
  | c :: s' =>
      if Ascii.eqb c "010" then
        if in_run then re_split_blank true s'
        else match s' with
             | c' :: _ =>
                 if Ascii.eqb c' "010" then [] :: re_split_blank true s'
                 else match re_split_blank false s' with
                      | [] => [[c]]
                      | h :: t => (c :: h) :: t
                      end
             | [] => [[c]]
             end
      else match re_split_blank false s' with
           | [] => [[c]]
           | h :: t => (c :: h) :: t
           end
  end.

(** Truth value of an optional string: [None] and [''] are false. *)
Definition truthy_str (o : option str) : bool :=
  match o with
  | Some (_ :: _) => true
  | _ => false
  end.

End Py.

Import Py.

Notation "x <- m ;; k" := (bind m (fun x => k))
  (at level 61, m at next level, right associativity).

Definition Qlt_bool (a b : Q) : bool := negb (Qle_bool b a).

(** ** bs4: the parsed document

    A [Tag] has a name and children.  Every string node of the tree
    ([NavigableString] and its subclasses) is a [NavigableString]: the
    flattener tests [isinstance(node, NavigableString)] only.  The
    [BeautifulSoup] object itself is the tag named [[document]]. *)

Inductive Node : Type :=
| Tag (name : str) (children : list Node)
| NavigableString (s : str).

Definition document (children : list Node) : Node :=
  Tag (py "[document]") children.

(** ** html_to_text_map *)

(** The three variables the closure [process_node] updates. *)
Record walk : Type := mkWalk {
  plain_text : str;
  position_map : list nat;
  html_pos : nat
}.

Definition EXCLUDED_TAGS : list str := [py "style"; py "script"].

Definition in_tags (name : str) (tags : list str) : bool :=
  existsb (fun t => if list_eq_dec ascii_dec name t then true else false) tags.

(** [while html_pos < len(html_content):
       if html_content[html_pos:].startswith(needle): break
       html_pos += 1]
    run on [rest = html_content[html_pos:]]. *)
Fixpoint advance (rest needle : str) (html_pos : nat) : nat :=
  match rest with
  | [] => html_pos
  | _ :: rest' =>
      if startswith rest needle then html_pos
      else advance rest' needle (S html_pos)
  end.

Definition search (html_content needle : str) (html_pos : nat) : nat :=
  advance (skipn html_pos html_content) needle html_pos.

(** The body of [process_node] for a string node outside the excluded
    tags. *)
Definition process_string (html_content node_str : str) (st : walk) : walk :=
  match strip node_str with
  | [] =>
      mkWalk (plain_text st) (position_map st)
             (html_pos st + length node_str)
  | _ :: _ =>
      let original_pos := html_pos st in
      let pos1 := search html_content (escape node_str) original_pos in
      let '(node_str, pos) :=
        if (length html_content <=? pos1)%nat
        then (strip node_str,
              search html_content (escape (strip node_str)) original_pos)
        else (node_str, pos1) in
      mkWalk (plain_text st ++ node_str)
             (position_map st ++ seq pos (length node_str))
             (pos + length node_str)
  end.

(** [process_node(node)]; [parent] is [node.parent.name]. *)
Fixpoint process_node (html_content parent : str) (node : Node) (st : walk)
  : walk :=
  match node with
  | NavigableString node_str =>
      if negb (in_tags parent EXCLUDED_TAGS)
      then process_string html_content node_str st
      else st
  | Tag name children =>
      fold_left (fun st child => process_node html_content name child st)
                children st
  end.

Definition html_to_text_map (soup : Node) (html_content : str)
  : str * list nat :=
  let st := process_node html_content [] soup (mkWalk [] [] 0) in
  (plain_text st, position_map st).

(** ** difflib: a model of [SequenceMatcher(None, a, b).ratio()] *)

Module Difflib.

Section Matcher.

(** The elements of [b] that autojunk removed from [b2j]. *)
Variable popular : ascii -> bool.

(** One pass of the inner loop of [find_longest_match] for the element [x]
    of [a]: entry [j] is [newj2len[j]], [0] when absent.  [shifted] is
    the previous row moved one place right ([j2len.get(j-1, 0)]). *)
Fixpoint row (x : ascii) (b : str) (shifted : list nat) : list nat :=
  match b with
  | [] => []
  | y :: b' =>
      (if Ascii.eqb x y && negb (popular y) then S (hd O shifted) else O)
        :: row x b' (tl shifted)
  end.

(** [if k > bestsize: besti, bestj, bestsize = i-k+1, j-k+1, k] for the
    entries of a row, [j] ascending. *)
Fixpoint scan_row (i j : nat) (r : list nat) (best : nat * nat * nat)
  : nat * nat * nat :=
  match r with
  | [] => best
  | k :: r' =>
      scan_row i (S j) r'
        (if (snd best <? k)%nat then (i + 1 - k, j + 1 - k, k)%nat else best)
  end.

Fixpoint scan_a (i : nat) (a b : str) (prev : list nat)
  (best : nat * nat * nat) : nat * nat * nat :=
  match a with
  | [] => best
  | x :: a' =>
      let r := row x b (O :: prev) in
      scan_a (S i) a' b r (scan_row i O r best)
  end.

(** Extension of the block to the left over equal elements. *)
Fixpoint extend_back (a b : str) (besti bestj bestsize : nat)
  : nat * nat * nat :=
  match besti, bestj with
  | S i', S j' =>
      match nth_error a i', nth_error b j' with
      | Some x, Some y =>
          if Ascii.eqb x y then extend_back a b i' j' (S bestsize)
          else (besti, bestj, bestsize)
      | _, _ => (besti, bestj, bestsize)
      end
  | _, _ => (besti, bestj, bestsize)
  end.

(** Extension to the right, on [a[besti+bestsize:]], [b[bestj+bestsize:]]. *)
Fixpoint extend_fwd (ra rb : str) (bestsize : nat) : nat :=
  match ra, rb with
  | x :: ra', y :: rb' =>
      if Ascii.eqb x y then extend_fwd ra' rb' (S bestsize) else bestsize
  | _, _ => bestsize
  end.

(** [find_longest_match(alo, ahi, blo, bhi)] on [a = self.a[alo:ahi]] and
    [b = self.b[blo:bhi]], indices relative to [alo] and [blo].  No element
    is junk ([isjunk] is [None]), so the two junk loops do nothing. *)
Definition find_longest_match (a b : str) : nat * nat * nat :=
  let '(i, j, k) := scan_a O a b [] (O, O, O) in
  let '(i, j, k) := extend_back a b i j k in
  (i, j, extend_fwd (skipn (i + k) a) (skipn (j + k) b) k).

(** The sum of the sizes of [get_matching_blocks()].  Each level removes at
    least one element of [a], so [fuel = S (length a)] is never used up. *)
Fixpoint matches (fuel : nat) (a b : str) : nat :=
  match fuel with
  | O => O
  | S fuel' =>
      let '(i, j, k) := find_longest_match a b in
      if (k =? 0)%nat then O
      else (k + matches fuel' (firstn i a) (firstn j b)
              + matches fuel' (skipn (i + k) a) (skipn (j + k) b))%nat
  end.

End Matcher.

(** [__chain_b] with [autojunk=True]: for [len(b) >= 200] the elements
    occurring more than [len(b) // 100 + 1] times are popular. *)
Definition popular (b : str) (c : ascii) : bool :=
  (200 <=? length b)%nat
  && (length b / 100 + 1 <? count_occ ascii_dec b c)%nat.

Definition ratio (a b : str) : Q :=
  let total := (length a + length b)%nat in
  if (total =? 0)%nat then 1%Q
  else Qmake (2 * Z.of_nat (matches (popular b) (S (length a)) a b))
             (Pos.of_nat total).

End Difflib.

(** ** find_best_match *)

Section Locator.

(** [difflib.SequenceMatcher(None, a, b).ratio()] *)
Variable ratio : str -> str -> Q.

(** [(best_start_index, best_end_index, best_ratio)] *)
Definition match_result : Type := option Z * option Z * Q.

(** [while char_start_index > 0 and text[char_start_index - 1].isalnum():
       char_start_index -= 1] *)
Fixpoint extend_start (text : str) (char_start_index : nat) : result Z :=
  match char_start_index with
  | O => OK 0
  | S before =>
      c <- getitem text (Z.of_nat before) ;;
      if isalnum c then extend_start text before
      else OK (Z.of_nat char_start_index)
  end.

(** [while char_end_index < len(text) and text[char_end_index - 1].isalnum():
       char_end_index += 1]
    with [todo = len(text) - char_end_index] iterations at most. *)
Fixpoint extend_end (text : str) (todo : nat) (char_end_index : Z)
  : result Z :=
  match todo with
  | O => OK char_end_index
  | S todo' =>
      if char_end_index <? len text then
        c <- getitem text (char_end_index - 1) ;;
        if isalnum c then extend_end text todo' (char_end_index + 1)
        else OK char_end_index
      else OK char_end_index
  end.

(** The character span of the window of [candidate_words] at word [i]: the
    statements under the [if] of the inner loop, up to the two boundary
    adjustments. *)
Definition boundaries (text : str) (text_words : list str)
  (first_pattern_word candidate : str) (i : Z) : result (Z * Z) :=
  let prefix := join (py " ") (slice text_words 0 i) in
  let char_start_index := len prefix + (if 0 <? i then 1 else 0) in
  let char_end_index := char_start_index + len candidate in
  w <- getitem text_words i ;;
  char_start_index <-
    (if negb (startswith w first_pattern_word)
     then extend_start text (Z.to_nat char_start_index)
     else OK char_start_index) ;;
  char_end_index <-
    extend_end text (Z.to_nat (len text - char_end_index)) char_end_index ;;
  OK (char_start_index, char_end_index).

(** The body of the inner loop for one [window] and one [i]. *)
Definition consider (text : str) (text_words : list str)
  (pattern first_pattern_word : str) (cutoff : Q)
  (window i : Z) (best : match_result) : result match_result :=
  let candidate_words := slice text_words i (i + window) in
  let candidate := join (py " ") candidate_words in
  let r := ratio candidate pattern in
  if Qlt_bool (snd best) r && Qle_bool cutoff r then
    span <- boundaries text text_words first_pattern_word candidate i ;;
    OK (Some (fst span), Some (snd span), r)
  else OK best.

(** A [for] loop whose body may raise. *)
Fixpoint for_each {A S : Type} (body : A -> S -> result S) (l : list A)
  (s : S) : result S :=
  match l with
  | [] => OK s
  | x :: l' => s' <- body x s ;; for_each body l' s'
  end.

(** The pairs [(window, i)] in the order the two nested loops visit them. *)
Definition visits (window_size n_words : Z) : list (Z * Z) :=
  flat_map (fun window => map (fun i => (window, i))
                              (range (n_words - window + 1)))
           [window_size - 1; window_size; window_size + 1].

Definition find_best_match (text pattern : str) (cutoff : Q)
  : result match_result :=
  let text_words := split text in
  let pattern_words := split pattern in
  let window_size := len pattern_words in
  match find text pattern with
  | Some start =>
      OK (Some (Z.of_nat start), Some (Z.of_nat start + len pattern), 1%Q)
  | None =>
      let first_pattern_word := hd [] pattern_words in
      for_each (fun '(window, i) =>
                  consider text text_words pattern first_pattern_word cutoff
                           window i)
               (visits window_size (len text_words))
               (None, None, 0%Q)
  end.

(** The default [cutoff=0.6]. *)
Definition default_cutoff : Q := 6 # 10.

(** ** find_markdown_in_html

    [md_text] is the text of the rendered Markdown,
    [BeautifulSoup(markdown.markdown(markdown_content)).get_text()], and
    [soup] the parse of [html_content]. *)

Definition find_markdown_in_html (soup : Node) (html_content md_text : str)
  : result (option str * option nat * option nat * Q) :=
  let '(html_text, position_map) := html_to_text_map soup html_content in
  r <- find_best_match html_text md_text default_cutoff ;;
  match r with
  | (Some start_idx, Some end_idx, similarity) =>
      let start_idx := Z.max 0 (Z.min start_idx (len position_map - 1)) in
      let end_idx := Z.max 0 (Z.min end_idx (len position_map - 1)) in
      html_start <- getitem position_map start_idx ;;
      html_end <- getitem position_map end_idx ;;
      let matching_html :=
        firstn (html_end - html_start) (skipn html_start html_content) in
      OK (Some matching_html, Some html_start, Some html_end, similarity)
  | (_, _, _) => OK (None, None, None, 0%Q)
  end.

End Locator.

(** ** find_closest_match *)

Section Reconciler.

Variable ratio : str -> str -> Q.

Definition similarity (a b : str) : Q := ratio (lower a) (lower b).

(** [max(iterable, key=key)]: the running maximum is replaced only by an
    item whose key is strictly greater. *)
Fixpoint max_by (key : str -> Q) (best : str) (l : list str) : str :=
  match l with
  | [] => best
  | x :: l' => max_by key (if Qlt_bool (key best) (key x) then x else best) l'
  end.

Definition find_closest_match (target : str) (candidates : list str)
  : result str :=
  match candidates with
  | [] => Raise (ValueError (py "Candidates list cannot be empty"))
  | c :: rest => OK (max_by (fun x => similarity target x) c rest)
  end.

End Reconciler.

(** ** Highlight records

    The dictionary of one highlight.  [labels] holds the [name] of each
    [{"name": label}] entry.  The four placement keys are written by
    [process_highlights_in_content]; [None] stands for a key that is absent
    or holds [None]. *)

Record Highlight : Type := mkHighlight {
  quote : str;
  labels : list str;
  notes : option str;
  html : option str;
  start_index : option nat;
  end_index : option nat;
  ratio : option Q
}.

Record Highlights : Type := mkHighlights {
  article_note : option str;
  highlights : list Highlight
}.

(** ** add_highlight_tag *)

Definition START_MARKER : str :=
  py "<span data-omnivore-highlight-start=" ++ ["034"%char] ++ py "true"
     ++ ["034"%char] ++ py "></span>".

Definition END_MARKER : str :=
  py "<span data-omnivore-highlight-end=" ++ ["034"%char] ++ py "true"
     ++ ["034"%char] ++ py "></span>".

(** [content[:hi]] and [content[lo:]]; a bound that is [None] is no bound. *)
Definition slice_to (content : str) (hi : option nat) : str :=
  match hi with
  | Some n => firstn n content
  | None => content
  end.

Definition slice_from (content : str) (lo : option nat) : str :=
  match lo with
  | Some n => skipn n content
  | None => content
  end.

Definition add_highlight_tag (content : str) (highlight : Highlight) : str :=
  slice_to content (start_index highlight)
  ++ START_MARKER
  ++ slice_to (slice_from content (start_index highlight))
              (match start_index highlight, end_index highlight with
               | Some s, Some e => Some (e - s)%nat
               | None, Some e => Some e
               | _, None => None
               end)
  ++ END_MARKER
  ++ slice_from content (end_index highlight).

(** ** parse_highlights_file

    [file] is the content of the file at [file_path], [None] when opening
    it raises [FileNotFoundError], the one exception the function catches.
    The other exceptions of [open] and [read] (a file that is not UTF-8, a
    directory, a file that may not be read) pass through the function and
    have no case here: what is proved holds for a file that is missing or
    was read as text. *)

Definition LF : str := ["010"%char].

Definition new_highlight (quote : str) : Highlight :=
  mkHighlight quote [] None None None None None.

Definition add_label (h : Highlight) (label : str) : Highlight :=
  mkHighlight (quote h) (labels h ++ [label]) (notes h)
              (html h) (start_index h) (end_index h) (ratio h).

Definition set_notes (h : Highlight) (n : str) : Highlight :=
  mkHighlight (quote h) (labels h) (Some n)
              (html h) (start_index h) (end_index h) (ratio h).

(** [old + "\n\n" + text if old else text] *)
Definition append_note (old : option str) (text : str) : str :=
  match old with
  | Some (c :: o) => (c :: o) ++ LF ++ LF ++ text
  | _ => text
  end.

(** [result] and [current_highlight]. *)
Definition parser_state : Type := Highlights * option Highlight.

Definition flush (st : parser_state) : Highlights :=
  match snd st with
  | Some h => mkHighlights (article_note (fst st)) (highlights (fst st) ++ [h])
  | None => fst st
  end.

Definition quote_of_lines (lines : list str) : str :=
  join LF (map (fun x => strip (lstrip (py "> ") x)) lines).

(** The body of [for block in blocks]. *)
Definition parse_block (block : str) (st : parser_state)
  : result parser_state :=
  let lines := split_on "010" (strip block) in
  first <- getitem lines 0 ;;
  if startswith first (py ">") then
    OK (flush st, Some (new_highlight (quote_of_lines lines)))
  else if startswith first (py "#") then
    match snd st with
    | Some h => OK (fst st, Some (add_label h (strip (lstrip (py "#") first))))
    | None => OK st
    end
  else
    match snd st with
    | None =>
        OK (mkHighlights
              (Some (append_note (article_note (fst st)) (strip block)))
              (highlights (fst st)),
            None)
    | Some h =>
        OK (fst st, Some (set_notes h (append_note (notes h) (strip block))))
    end.

Definition blocks_of (content : str) : list str :=
  re_split_blank false (strip content).

Definition parse_highlights_file (file : option str) : result Highlights :=
  match file with
  | None => OK (mkHighlights None [])
  | Some content =>
      st <- for_each parse_block (blocks_of content)
                     (mkHighlights None [], None) ;;
      OK (flush st)
  end.

(** ** process_highlights_in_content *)

Section Placement.

Variable ratio_fn : str -> str -> Q.

(** [BeautifulSoup(html, 'html.parser')] *)
Variable BeautifulSoup : str -> Node.

(** [BeautifulSoup(markdown.markdown(md), 'html.parser').get_text()] *)
Variable markdown_text : str -> str.

(** [content], the highlights already visited, and what was printed. *)
Definition placement_state : Type := str * list Highlight * list str.

Definition failure_message (h : Highlight) : str :=
  py "Failed to import highlight: " ++ firstn 50 (quote h) ++ py "...".

(** Truth value of [highlight["start_index"]]: [None] and [0] are false. *)
Definition truthy_index (o : option nat) : bool :=
  match o with
  | Some (S _) => true
  | _ => false
  end.

(** The body of [for highlight in highlights_data["highlights"]]. *)
Definition place (highlight : Highlight) (st : placement_state)
  : result placement_state :=
  let '(content, done, printed) := st in
  found <- find_markdown_in_html ratio_fn (BeautifulSoup content) content
                                 (markdown_text (quote highlight)) ;;
  let '(h_html, h_start, h_end, h_ratio) := found in
  let highlight :=
    mkHighlight (quote highlight) (labels highlight) (notes highlight)
                h_html h_start h_end (Some h_ratio) in
  if truthy_index (start_index highlight)
  then OK (add_highlight_tag content highlight, done ++ [highlight], printed)
  else OK (content, done ++ [highlight],
           printed ++ [failure_message highlight]).

Definition process_highlights_in_content (content : str)
  (highlights_data : Highlights) : result placement_state :=
  for_each place (highlights highlights_data) (content, [], []).

End Placement.

(** * Properties *)

(** ** Rational comparisons *)

Lemma Qlt_bool_true (a b : Q) : Qlt_bool a b = true <-> (a < b)%Q.
Proof.
  unfold Qlt_bool. rewrite negb_true_iff. split.
  - intros H. apply Qnot_le_lt. intros Hle.
    apply Qle_bool_iff in Hle. congruence.
  - intros H. destruct (Qle_bool b a) eqn:E; [|reflexivity].
    apply Qle_bool_iff in E. exfalso. exact (Qlt_not_le _ _ H E).
Qed.

Lemma Qlt_bool_false (a b : Q) : Qlt_bool a b = false <-> (b <= a)%Q.
Proof.
  unfold Qlt_bool. rewrite negb_false_iff. apply Qle_bool_iff.
Qed.

(** ** Lists and indices *)

Lemma getitem_nat {A} (l : list A) (n : nat) (x : A) :
  nth_error l n = Some x -> getitem l (Z.of_nat n) = OK x.
Proof.
  intros H. unfold getitem, len.
  assert (Hlt : (n < length l)%nat) by (apply nth_error_Some; congruence).
  destruct (Z.of_nat n <? 0) eqn:E; [apply Z.ltb_lt in E; lia|].
  replace (0 <=? Z.of_nat n) with true by (symmetry; apply Z.leb_le; lia).
  replace (Z.of_nat n <? Z.of_nat (length l)) with true
    by (symmetry; apply Z.ltb_lt; lia).
  simpl. rewrite Nat2Z.id, H. reflexivity.
Qed.

Lemma getitem_in_range {A} (l : list A) (i : Z) :
  - len l <= i < len l -> exists x, getitem l i = OK x.
Proof.
  unfold getitem, len. intros H.
  set (j := if i <? 0 then i + Z.of_nat (length l) else i).
  assert (Hj : 0 <= j < Z.of_nat (length l)).
  { subst j. destruct (i <? 0) eqn:E;
      [apply Z.ltb_lt in E | apply Z.ltb_ge in E]; lia. }
  replace (0 <=? j) with true by (symmetry; apply Z.leb_le; lia).
  replace (j <? Z.of_nat (length l)) with true
    by (symmetry; apply Z.ltb_lt; lia).
  simpl. destruct (nth_error l (Z.to_nat j)) eqn:E; [eauto|].
  apply nth_error_None in E. lia.
Qed.

Lemma getitem_empty {A} (i : Z) : getitem (@nil A) i = Raise IndexError.
Proof.
  unfold getitem, len. simpl.
  destruct (i <? 0) eqn:E.
  - apply Z.ltb_lt in E.
    replace (0 <=? i + 0) with false by (symmetry; apply Z.leb_gt; lia).
    reflexivity.
  - apply Z.ltb_ge in E.
    replace (i <? 0) with false by (symmetry; apply Z.ltb_ge; lia).
    rewrite andb_false_r. reflexivity.
Qed.

(** ** The placement loop (C10) *)

(** C10.  In the body of the placement loop, a located excerpt whose markup
    start offset is [0] takes the same branch as an excerpt that was not
    found ([None]): the content is left as it is, no marker is inserted, and
    the failure message is printed. *)
Theorem place_start_zero_is_failure
  (ratio_fn : str -> str -> Q) (BeautifulSoup : str -> Node)
  (markdown_text : str -> str) (highlight : Highlight) (content : str)
  (done : list Highlight) (printed : list str)
  (m : option str) (s e : option nat) (r : Q)
  (Hfound : find_markdown_in_html ratio_fn (BeautifulSoup content) content
              (markdown_text (quote highlight)) = OK (m, s, e, r))
  (Hstart : s = Some O \/ s = None) :
  place ratio_fn BeautifulSoup markdown_text highlight
        (content, done, printed)
  = OK (content,
        done ++ [mkHighlight (quote highlight) (labels highlight)
                             (notes highlight) m s e (Some r)],
        printed ++ [py "Failed to import highlight: "
                      ++ firstn 50 (quote highlight) ++ py "..."]).
Proof.
  unfold place. rewrite Hfound. simpl.
  destruct Hstart as [-> | ->]; reflexivity.
Qed.

Lemma place_start_zero_is_failure_witness :
  place Difflib.ratio (fun _ => document [NavigableString (py "abc")])
        (fun q => q) (new_highlight (py "abc")) (py "abc", [], [])
  = OK (py "abc",
        [mkHighlight (py "abc") [] None (Some (py "ab")) (Some O)
                     (Some 2%nat) (Some 1%Q)],
        [py "Failed to import highlight: abc..."]).
Proof.
  apply (place_start_zero_is_failure Difflib.ratio
           (fun _ => document [NavigableString (py "abc")]) (fun q => q)
           (new_highlight (py "abc")) (py "abc") [] []
           (Some (py "ab")) (Some O) (Some 2%nat) 1%Q).
  - reflexivity.
  - left. reflexivity.
Defined.

(** ** The position map (C2) *)

Section Node_induction.

Variable P : Node -> Prop.
Hypothesis P_string : forall s, P (NavigableString s).
Hypothesis P_tag :
  forall name children, Forall P children -> P (Tag name children).

Fixpoint Node_nested_ind (n : Node) : P n :=
  match n with
  | NavigableString s => P_string s
  | Tag name children =>
      P_tag name children
        ((fix all (l : list Node) : Forall P l :=
            match l with
            | [] => Forall_nil P
            | x :: l' => Forall_cons x (Node_nested_ind x) (all l')
            end) children)
  end.

End Node_induction.

Definition aligned (st : walk) : Prop :=
  length (position_map st) = length (plain_text st).

Lemma process_string_aligned (html_content node_str : str) (st : walk) :
  aligned st -> aligned (process_string html_content node_str st).
Proof.
  unfold aligned, process_string. intros H.
  destruct (strip node_str) eqn:E; [exact H|].
  destruct (length html_content <=? _)%nat;
    cbv beta iota zeta; cbn [position_map plain_text];
    rewrite !length_app, length_seq, H; reflexivity.
Qed.

Lemma process_node_aligned (html_content : str) (node : Node) :
  forall parent st,
    aligned st -> aligned (process_node html_content parent node st).
Proof.
  induction node as [s | name children IH] using Node_nested_ind;
    intros parent st H; simpl.
  - destruct (negb _); [apply process_string_aligned|]; exact H.
  - revert st H. induction IH as [| child rest Hchild _ IHrest];
      intros st H; simpl; [exact H|].
    apply IHrest, Hchild, H.
Qed.

(** The first half of the position map invariant: one map entry per
    character of the plain text, for every document. *)
Lemma position_map_length (soup : Node) (html_content : str) :
  length (snd (html_to_text_map soup html_content))
  = length (fst (html_to_text_map soup html_content)).
Proof.
  unfold html_to_text_map. simpl.
  apply (process_node_aligned html_content soup [] (mkWalk [] [] 0)).
  reflexivity.
Qed.

(** C2, at the input [it's].  The parser yields one string node [it's];
    [escape] turns it into [it&#x27;s], which does not occur in the source,
    and neither search finds it: [html_pos] ends at [len(html_content) = 4]
    and the four map entries are [4..7], none of them an index into the
    source. *)
Theorem position_map_entries_past_the_source :
  html_to_text_map (document [NavigableString (py "it's")]) (py "it's")
  = (py "it's", [4; 5; 6; 7]%nat)
  /\ length (py "it's") = 4%nat
  /\ escape (py "it's") = py "it&#x27;s".
Proof. repeat split; reflexivity. Qed.

(** ** Clamping in the remapper (C6) *)

(** With at least one map entry the clamped index is always in range. *)
Lemma clamped_getitem_ok (position_map : list nat) (idx : Z) :
  position_map <> [] ->
  exists p, getitem position_map
              (Z.max 0 (Z.min idx (len position_map - 1))) = OK p.
Proof.
  intros Hne. apply getitem_in_range. unfold len.
  destruct position_map; [congruence|]. simpl length. lia.
Qed.

(** C6, at the empty document and the empty excerpt.  The flattened text
    and the position map are empty, the exact-match path reports the span
    [(0, 0)], both indices are clamped to [max(0, min(0, -1)) = 0], and
    [position_map[0]] raises [IndexError]. *)
Theorem remap_on_empty_map_raises (ratio_fn : str -> str -> Q) :
  html_to_text_map (document []) [] = ([], [])
  /\ find_best_match ratio_fn [] [] default_cutoff = OK (Some 0, Some 0, 1%Q)
  /\ find_markdown_in_html ratio_fn (document []) [] [] = Raise IndexError.
Proof. repeat split; reflexivity. Qed.

(** ** Boundary refinement (C5) *)

(** C5, at the example of the specification.  The best window is the
    single word [thisbook], characters [5..12]; index [13] holds a space,
    which is not alphanumeric, yet the end of the span is moved to [14]:
    the loop tests the character at [char_end_index - 1], the last one of
    the span, and not the one at [char_end_index]. *)
Theorem end_boundary_tests_previous_character :
  find_best_match Difflib.ratio (py "read thisbook carefully")
                  (py "this book") default_cutoff
  = OK (Some 5, Some 14, 16 # 17)
  /\ slice (py "read thisbook carefully") 5 13 = py "thisbook"
  /\ getitem (py "read thisbook carefully") 13 = OK " "%char
  /\ isalnum " " = false.
Proof. repeat split; vm_compute; reflexivity. Qed.

(** ** The reconciler (C3) *)

Lemma max_by_first_maximum (key : str -> Q) (l : list str) :
  forall best before ties,
    (forall x, In x before -> (key x < key best)%Q) ->
    (forall x, In x ties -> (key x <= key best)%Q) ->
    exists pre post,
      before ++ best :: ties ++ l = pre ++ max_by key best l :: post
      /\ (forall x, In x pre -> (key x < key (max_by key best l))%Q)
      /\ (forall x, In x post -> (key x <= key (max_by key best l))%Q).
Proof.
  induction l as [| x l IH]; intros best before ties Hb Ht; simpl.
  - exists before, ties. rewrite app_nil_r. auto.
  - destruct (Qlt_bool (key best) (key x)) eqn:E.
    + apply Qlt_bool_true in E.
      destruct (IH x (before ++ best :: ties) []) as (pre & post & Heq & H1 & H2).
      * intros y Hy. apply in_app_or in Hy. destruct Hy as [Hy | [<- | Hy]].
        -- eapply Qlt_trans; [apply Hb, Hy | exact E].
        -- exact E.
        -- eapply Qle_lt_trans; [apply Ht, Hy | exact E].
      * intros y [].
      * exists pre, post. split; [|auto].
        rewrite <- Heq. simpl. rewrite <- !app_assoc. reflexivity.
    + apply Qlt_bool_false in E.
      destruct (IH best before (ties ++ [x])) as (pre & post & Heq & H1 & H2).
      * exact Hb.
      * intros y Hy. apply in_app_or in Hy. destruct Hy as [Hy | [<- | []]].
        -- apply Ht, Hy.
        -- exact E.
      * exists pre, post. split; [|auto].
        rewrite <- Heq. rewrite <- !app_assoc. reflexivity.
Qed.


(** ** The note parser (C4, C8) *)

Lemma lstrip_by_all (p : ascii -> bool) (s : str) :
  forallb p s = true -> lstrip_by p s = [].
Proof.
  induction s as [| c s IH]; simpl; [reflexivity|].
  intros H. apply andb_true_iff in H. destruct H as [-> H]. auto.
Qed.

Lemma strip_blank (s : str) : forallb isspace s = true -> strip s = [].
Proof.
  intros H. unfold strip. rewrite (lstrip_by_all _ _ H). reflexivity.
Qed.

Lemma split_on_first (sep : ascii) (s : str) :
  exists first rest, split_on sep s = first :: rest.
Proof.
  destruct s as [| c s]; simpl; [eauto|].
  destruct (Ascii.eqb c sep); [eauto|].
  destruct (split_on sep s); eauto.
Qed.

Definition lines_of (block : str) : list str := split_on "010" (strip block).

Definition is_quote_block (block : str) : bool :=
  startswith (hd [] (lines_of block)) (py ">").

Definition quotes (r : Highlights) : list str := map quote (highlights r).

Lemma quotes_flush_quote (st : parser_state) (q : str) :
  quotes (flush (flush st, Some (new_highlight q))) = quotes (flush st) ++ [q].
Proof.
  unfold quotes, flush at 1. simpl. rewrite map_app. reflexivity.
Qed.

(** One block: [lines[0]] exists, so nothing is raised; a quote block
    closes the current record and opens one with the quote of its lines,
    any other block leaves the quotes as they are. *)
Lemma parse_block_quotes (block : str) (st : parser_state) :
  exists st',
    parse_block block st = OK st'
    /\ quotes (flush st')
       = quotes (flush st)
         ++ (if is_quote_block block
             then [quote_of_lines (lines_of block)] else []).
Proof.
  unfold parse_block, is_quote_block, lines_of.
  destruct (split_on_first "010" (strip block)) as (first & rest & ->).
  change (getitem (first :: rest) 0) with (OK first). simpl hd.
  cbn [bind].
  destruct (startswith first (py ">")).
  - eexists. split; [reflexivity|]. apply quotes_flush_quote.
  - rewrite app_nil_r.
    destruct (startswith first (py "#")).
    + destruct st as [r [h|]]; eexists; (split; [reflexivity|]);
        unfold quotes, flush; simpl; rewrite ?map_app; reflexivity.
    + destruct st as [r [h|]]; eexists; (split; [reflexivity|]);
        unfold quotes, flush; simpl; rewrite ?map_app; reflexivity.
Qed.

Lemma parse_blocks_quotes (blocks : list str) :
  forall st,
    exists st',
      for_each parse_block blocks st = OK st'
      /\ quotes (flush st')
         = quotes (flush st)
           ++ map (fun b => quote_of_lines (lines_of b))
                  (filter is_quote_block blocks).
Proof.
  induction blocks as [| b blocks IH]; intros st; simpl.
  - exists st. rewrite app_nil_r. auto.
  - destruct (parse_block_quotes b st) as (st1 & -> & H1). cbn [bind].
    destruct (IH st1) as (st' & -> & H'). exists st'. split; [reflexivity|].
    rewrite H', H1, <- app_assoc.
    destruct (is_quote_block b); reflexivity.
Qed.

(** The quote of C4 as the claim words it: per line, the leading marker and
    one space after it are removed, then the surrounding whitespace. *)
Definition strip_marker_and_space (x : str) : str :=
  if startswith x (py "> ") then strip (skipn 2 x)
  else if startswith x (py ">") then strip (skipn 1 x)
  else strip x.

Definition quote_grammar_as_claimed (content : str) : Prop :=
  exists r,
    parse_highlights_file (Some content) = OK r
    /\ quotes r
       = map (fun b => join LF (map strip_marker_and_space (lines_of b)))
             (filter is_quote_block (blocks_of content)).

(** C4 fails on a nested quote: the parser turns the block [>> a] into the
    quote [a], the claim's reading gives [> a]. *)
Lemma quote_grammar_nested_marker :
  parse_highlights_file (Some (py ">> a"))
  = OK (mkHighlights None [new_highlight (py "a")])
  /\ ~ quote_grammar_as_claimed (py ">> a").
Proof.
  split; [reflexivity|].
  intros (r & Hr & Hq). vm_compute in Hr. injection Hr as <-.
  vm_compute in Hq. discriminate.
Qed.

(** C4, amended.  Every content parses; the quotes of the records are, in
    order, those of the blocks whose first line starts with [>]; and the
    quote of such a block is its lines, each with all its leading [>] and
    space characters removed ([lstrip('> ')]) and then its surrounding
    whitespace, joined again with line feeds. *)
Theorem quotes_of_quote_blocks (content : str) :
  exists r,
    parse_highlights_file (Some content) = OK r
    /\ map quote (highlights r)
       = map (fun block =>
                join LF (map (fun x => strip (lstrip (py "> ") x))
                             (lines_of block)))
             (filter is_quote_block (blocks_of content)).
Proof.
  unfold parse_highlights_file.
  destruct (parse_blocks_quotes (blocks_of content) (mkHighlights None [], None))
    as (st & -> & H).
  exists (flush st). split; [reflexivity|]. exact H.
Qed.

(** C8 fails on the empty document: the single empty block is taken as
    note text and [article_note] becomes [''], not [None]. *)
Lemma parse_empty_document_note :
  parse_highlights_file (Some []) = OK (mkHighlights (Some []) [])
  /\ parse_highlights_file (Some []) <> OK (mkHighlights None []).
Proof. split; [reflexivity | discriminate]. Qed.

(** C8, amended.  A missing file gives no note ([None]) and no record; a
    document that is empty or holds only whitespace gives the empty string
    as note (false like [None] in the tests of its readers) and no record;
    neither of the two raises. *)
Theorem parse_missing_or_blank (content : str)
  (Hblank : forallb isspace content = true) :
  parse_highlights_file None = OK (mkHighlights None [])
  /\ parse_highlights_file (Some content) = OK (mkHighlights (Some []) [])
  /\ truthy_str (Some []) = false.
Proof.
  split; [reflexivity|]. split; [|reflexivity].
  unfold parse_highlights_file, blocks_of.
  rewrite (strip_blank _ Hblank). reflexivity.
Qed.

Lemma parse_missing_or_blank_witness :
  parse_highlights_file (Some (py "  "))
  = OK (mkHighlights (Some []) []).
Proof.
  apply (parse_missing_or_blank (py "  ")). reflexivity.
Defined.

(** ** Cutoff monotonicity (C7) *)

(** The loop of [find_best_match] seen from afar: every visit [x] has a
    ratio [key x] and a span computation [act x] that may raise; [scan c]
    is the loop body under the cutoff [c]. *)
Section Scan.

Variable X : Type.
Variable key : X -> Q.
Variable act : X -> result (Z * Z).

Definition scan (c : Q) (x : X) (best : match_result) : result match_result :=
  if Qlt_bool (snd best) (key x) && Qle_bool c (key x) then
    span <- act x ;;
    OK (Some (fst span), Some (snd span), key x)
  else OK best.

Definition nothing : match_result := (None, None, 0%Q).

Definition recordable (x : X) : Prop :=
  (0 < key x)%Q -> exists span, act x = OK span.

Lemma scan_total (c : Q) (x : X) (best : match_result) :
  recordable x -> (0 <= snd best)%Q ->
  exists best',
    scan c x best = OK best' /\ (0 <= snd best')%Q
    /\ (best' = best \/ exists s e r, best' = (Some s, Some e, r)).
Proof.
  intros Hx Hb. unfold scan.
  destruct (Qlt_bool (snd best) (key x)) eqn:E1; simpl; [|eauto].
  destruct (Qle_bool c (key x)) eqn:E2; simpl; [|eauto].
  apply Qlt_bool_true in E1.
  destruct Hx as [span ->]; [eapply Qle_lt_trans; eauto|].
  simpl. eexists. split; [reflexivity|]. split.
  - simpl. apply Qlt_le_weak. eapply Qle_lt_trans; eauto.
  - right. eauto.
Qed.

Lemma for_each_scan_total (c : Q) (l : list X) :
  Forall recordable l ->
  forall best, (0 <= snd best)%Q ->
    exists best',
      for_each (scan c) l best = OK best'
      /\ (best' = best \/ exists s e r, best' = (Some s, Some e, r)).
Proof.
  induction 1 as [| x l Hx _ IH]; intros best Hb; simpl; [eauto|].
  destruct (scan_total c x best Hx Hb) as (b1 & -> & Hb1 & Hshape).
  cbn [bind]. destruct (IH b1 Hb1) as (b' & -> & Hshape').
  exists b'. split; [reflexivity|].
  destruct Hshape' as [-> | ?]; [exact Hshape | auto].
Qed.

Variables c1 c2 : Q.
Hypothesis c1_le_c2 : (c1 <= c2)%Q.

(** How the state [b1] of the run under [c1] relates to the state [b2] of
    the run under [c2] after the same visits: equal, or the second has
    recorded nothing and the first holds a ratio below [c2]. *)
Definition lags (b1 b2 : match_result) : Prop :=
  (b1 = b2 /\ (b2 = nothing \/ (c2 <= snd b2)%Q))
  \/ (b2 = nothing /\ (snd b1 < c2)%Q).

Lemma scan_lags (x : X) (b1 b2 b2' : match_result) :
  recordable x -> (0 <= snd b1)%Q -> lags b1 b2 ->
  scan c2 x b2 = OK b2' ->
  exists b1', scan c1 x b1 = OK b1' /\ (0 <= snd b1')%Q /\ lags b1' b2'.
Proof.
  intros Hx Hb1 Hlag H2.
  assert (Hb2 : (0 <= snd b2)%Q).
  { destruct Hlag as [[<- _] | [-> _]]; [exact Hb1 | apply Qle_refl]. }
  unfold scan in H2.
  destruct (Qlt_bool (snd b2) (key x) && Qle_bool c2 (key x)) eqn:E2.
  - apply andb_true_iff in E2. destruct E2 as [Elt Ele].
    apply Qlt_bool_true in Elt. apply Qle_bool_iff in Ele.
    assert (Hlt1 : (snd b1 < key x)%Q).
    { destruct Hlag as [[-> _] | [_ Hlt]]; [exact Elt|].
      eapply Qlt_le_trans; eauto. }
    unfold scan.
    replace (Qlt_bool (snd b1) (key x)) with true
      by (symmetry; apply Qlt_bool_true; exact Hlt1).
    replace (Qle_bool c1 (key x)) with true
      by (symmetry; apply Qle_bool_iff; eapply Qle_trans; eauto).
    simpl. destruct (act x) as [span | err]; simpl in *; [|discriminate].
    injection H2 as <-. eexists. split; [reflexivity|]. split.
    + simpl. apply Qlt_le_weak. eapply Qle_lt_trans; eauto.
    + left. split; [reflexivity|]. right. exact Ele.
  - injection H2 as <-.
    destruct (scan_total c1 x b1 Hx Hb1) as (b1' & Hs & Hb1' & _).
    exists b1'. split; [exact Hs|]. split; [exact Hb1'|].
    unfold scan in Hs.
    destruct (Qlt_bool (snd b1) (key x) && Qle_bool c1 (key x)) eqn:E1;
      [|injection Hs as <-; exact Hlag].
    apply andb_true_iff in E1. destruct E1 as [Elt1 _].
    apply Qlt_bool_true in Elt1.
    assert (Hkey : (0 < key x)%Q) by exact (Qle_lt_trans _ _ _ Hb1 Elt1).
    destruct (act x) as [span | err]; simpl in Hs; [|discriminate].
    injection Hs as <-. right.
    apply andb_false_iff in E2.
    destruct Hlag as [[-> [-> | Hge]] | [-> Hlt]].
    + split; [reflexivity|]. simpl.
      destruct E2 as [E | E].
      * apply Qlt_bool_false in E. simpl in E.
        exfalso. exact (Qlt_not_le _ _ Hkey E).
      * apply Qnot_le_lt. intros Hle. apply Qle_bool_iff in Hle. congruence.
    + exfalso. destruct E2 as [E | E].
      * apply Qlt_bool_false in E. exact (Qlt_not_le _ _ Elt1 E).
      * assert (Hle : (c2 <= key x)%Q)
          by (apply Qlt_le_weak; eapply Qle_lt_trans; eauto).
        apply Qle_bool_iff in Hle. congruence.
    + split; [reflexivity|]. simpl.
      destruct E2 as [E | E].
      * apply Qlt_bool_false in E. simpl in E.
        exfalso. exact (Qlt_not_le _ _ Hkey E).
      * apply Qnot_le_lt. intros Hle. apply Qle_bool_iff in Hle. congruence.
Qed.

Lemma for_each_scan_lags (l : list X) :
  Forall recordable l ->
  forall b1 b2 s e r,
    (0 <= snd b1)%Q -> lags b1 b2 ->
    for_each (scan c2) l b2 = OK (Some s, Some e, r) ->
    for_each (scan c1) l b1 = OK (Some s, Some e, r).
Proof.
  induction 1 as [| x l Hx _ IH]; intros b1 b2 s e r Hb1 Hlag H2; simpl in *.
  - injection H2 as ->.
    destruct Hlag as [[-> _] | [Hn _]]; [reflexivity | discriminate].
  - destruct (scan c2 x b2) as [b2' | err] eqn:E2; simpl in H2; [|discriminate].
    destruct (scan_lags x b1 b2 b2' Hx Hb1 Hlag E2) as (b1' & -> & Hb1' & Hlag').
    cbn [bind]. eapply IH; eauto.
Qed.

(** A span found under the higher cutoff is returned unchanged under the
    lower one, and nothing found under the lower one means nothing found
    under the higher one. *)
Lemma scan_cutoff_monotone (l : list X) :
  Forall recordable l ->
  (forall s e r,
     for_each (scan c2) l nothing = OK (Some s, Some e, r) ->
     for_each (scan c1) l nothing = OK (Some s, Some e, r))
  /\ (for_each (scan c1) l nothing = OK nothing ->
      for_each (scan c2) l nothing = OK nothing).
Proof.
  intros Hl.
  assert (H0 : (0 <= snd nothing)%Q) by apply Qle_refl.
  assert (Hfound : forall s e r,
             for_each (scan c2) l nothing = OK (Some s, Some e, r) ->
             for_each (scan c1) l nothing = OK (Some s, Some e, r)).
  { intros s e r H2. eapply for_each_scan_lags; eauto.
    left. split; [reflexivity | left; reflexivity]. }
  split; [exact Hfound|].
  intros H1.
  destruct (for_each_scan_total c2 l Hl nothing H0)
    as (b2 & E2 & [-> | (s & e & r & ->)]); [exact E2|].
  rewrite (Hfound s e r E2) in H1. discriminate.
Qed.

End Scan.

Lemma extend_start_ok (text : str) (n : nat) :
  (n <= length text)%nat -> exists z, extend_start text n = OK z.
Proof.
  induction n as [| n IH]; intros H; cbn [extend_start]; [eauto|].
  destruct (nth_error text n) as [c|] eqn:E;
    [| apply nth_error_None in E; lia].
  rewrite (getitem_nat _ _ _ E). cbn [bind].
  destruct (isalnum c); [apply IH; lia | eauto].
Qed.

Lemma extend_end_ok (text : str) (todo : nat) :
  forall e, 0 <= e -> exists z, extend_end text todo e = OK z.
Proof.
  induction todo as [| todo IH]; intros e He; cbn [extend_end]; [eauto|].
  destruct (e <? len text) eqn:E; [|eauto]. apply Z.ltb_lt in E.
  destruct (getitem_in_range text (e - 1)) as [c ->]; [lia|].
  cbn [bind]. destruct (isalnum c); [apply IH; lia | eauto].
Qed.

Lemma join_cons (sep x y : str) (rest : list str) :
  join sep (x :: y :: rest) = x ++ sep ++ join sep (y :: rest).
Proof. reflexivity. Qed.

(** The words before word [i], joined, and the separator after them fit in
    the join of all the words. *)
Lemma join_firstn_length (sep : str) (ws : list str) :
  forall i, (i < length ws)%nat ->
    (length (join sep (firstn i ws)) + (if (0 <? i)%nat then length sep else 0)
     <= length (join sep ws))%nat.
Proof.
  induction ws as [| x rest IH]; intros i Hi; [simpl in Hi; lia|].
  destruct i as [| i]; [simpl; lia|].
  destruct rest as [| y rest]; [simpl in Hi; lia|].
  assert (Hi' : (i < length (y :: rest))%nat) by (simpl in *; lia).
  specialize (IH i Hi').
  destruct i as [| i].
  - rewrite join_cons. cbn [firstn join Nat.ltb Nat.leb].
    rewrite !length_app. lia.
  - change (firstn (S (S i)) (x :: y :: rest))
      with (x :: y :: firstn i rest).
    change (firstn (S i) (y :: rest)) with (y :: firstn i rest) in IH.
    rewrite !join_cons.
    cbn [Nat.ltb Nat.leb] in *. rewrite !length_app in *. lia.
Qed.

Lemma split_ws_from_join_length (s : str) :
  forall cur,
    (length (join (py " ") (split_ws_from cur s)) <= length cur + length s)%nat.
Proof.
  induction s as [| c s IH]; intros cur; cbn [split_ws_from].
  - destruct cur; simpl; [lia|]. rewrite length_app, length_rev. simpl. lia.
  - destruct (isspace c).
    + specialize (IH []). simpl length in *.
      destruct cur as [| a cur]; [lia|].
      destruct (split_ws_from [] s) as [| w ws].
      * cbn [join]. rewrite length_rev. simpl. lia.
      * rewrite join_cons, !length_app, length_rev. simpl length in *. lia.
    + specialize (IH (c :: cur)). simpl length in *. lia.
Qed.

Lemma slice_prefix {A} (l : list A) (i : Z) :
  0 <= i < len l -> slice l 0 i = firstn (Z.to_nat i) l.
Proof.
  intros H. unfold slice, slice_bound.
  replace (0 <? 0) with false by reflexivity.
  replace (i <? 0) with false by (symmetry; apply Z.ltb_ge; lia).
  unfold len in *. rewrite !Z.min_l by lia.
  rewrite Z.sub_0_r. reflexivity.
Qed.

Lemma slice_nonempty {A} (l : list A) (i hi : Z) :
  0 <= i -> slice l i hi <> [] -> i < len l.
Proof.
  intros Hi Hne. destruct (Z.lt_ge_cases i (len l)) as [|Hge]; [assumption|].
  exfalso. apply Hne. unfold slice, slice_bound.
  replace (i <? 0) with false by (symmetry; apply Z.ltb_ge; lia).
  rewrite (Z.min_r i) by lia. unfold len. rewrite Nat2Z.id.
  rewrite skipn_all. apply firstn_nil.
Qed.

(** For a word index in range, the span computation indexes only inside
    [text] and [text_words]. *)
Lemma boundaries_ok (text first_pattern_word candidate : str) (i : Z) :
  0 <= i < len (split text) ->
  exists span,
    boundaries text (split text) first_pattern_word candidate i = OK span.
Proof.
  intros Hi. unfold boundaries.
  destruct (getitem_in_range (split text) i) as [w ->]; [lia|]. cbn [bind].
  rewrite (slice_prefix _ _ Hi).
  set (start := len (join (py " ") (firstn (Z.to_nat i) (split text)))
                + (if 0 <? i then 1 else 0)).
  assert (Hstart : 0 <= start <= len text).
  { subst start. unfold len in *.
    pose proof (join_firstn_length (py " ") (split text) (Z.to_nat i)) as H1.
    pose proof (split_ws_from_join_length text []) as H2.
    fold (split text) in H2. simpl length in H1, H2.
    change (py " ") with [" "%char] in *.
    specialize (H1 ltac:(lia)).
    destruct (0 <? i) eqn:E0; [apply Z.ltb_lt in E0 | apply Z.ltb_ge in E0];
      destruct (0 <? Z.to_nat i)%nat eqn:E1;
      try (apply Nat.ltb_lt in E1); try (apply Nat.ltb_ge in E1); lia. }
  assert (Hs : exists z,
             (if negb (startswith w first_pattern_word)
              then extend_start text (Z.to_nat start) else OK start) = OK z).
  { destruct (negb _); [|eauto].
    apply extend_start_ok. unfold len in *. lia. }
  destruct Hs as [z ->]. cbn [bind].
  destruct (extend_end_ok text
              (Z.to_nat (len text - (start + len candidate)))
              (start + len candidate)) as [z' ->];
    [unfold len; lia|].
  cbn [bind]. eauto.
Qed.

Lemma visits_index (window_size n window i : Z) :
  In (window, i) (visits window_size n) -> 0 <= i.
Proof.
  unfold visits, range. intros H. apply in_flat_map in H.
  destruct H as (w & _ & H). apply in_map_iff in H.
  destruct H as (j & Heq & H). injection Heq as _ <-.
  apply in_map_iff in H. destruct H as (k & <- & _). lia.
Qed.

Lemma for_each_ext {A S : Type} (f g : A -> S -> result S) (l : list A) :
  (forall x s, f x s = g x s) ->
  forall s, for_each f l s = for_each g l s.
Proof.
  intros H. induction l as [| x l IH]; intros s; simpl; [reflexivity|].
  rewrite H. destruct (g x s); simpl; auto.
Qed.

Lemma find_empty (text : str) : find text [] = Some O.
Proof. destruct text; reflexivity. Qed.

Section Fuzzy_path.

Variable ratio_fn : str -> str -> Q.

(** What [difflib] returns when only the first string is empty. *)
Hypothesis ratio_empty : forall p, p <> [] -> (ratio_fn [] p <= 0)%Q.

Variables text pattern : str.

Definition window_ratio (x : Z * Z) : Q :=
  ratio_fn (join (py " ") (slice (split text) (snd x) (snd x + fst x)))
           pattern.

Definition window_span (x : Z * Z) : result (Z * Z) :=
  boundaries text (split text) (hd [] (split pattern))
             (join (py " ") (slice (split text) (snd x) (snd x + fst x)))
             (snd x).

Lemma find_best_match_scan (cutoff : Q) :
  find text pattern = None ->
  find_best_match ratio_fn text pattern cutoff
  = for_each (scan _ window_ratio window_span cutoff)
             (visits (len (split pattern)) (len (split text)))
             (nothing).
Proof.
  intros Hnone. unfold find_best_match. rewrite Hnone.
  apply for_each_ext. intros [window i] best. reflexivity.
Qed.

Lemma visits_recordable :
  pattern <> [] ->
  Forall (recordable _ window_ratio window_span)
         (visits (len (split pattern)) (len (split text))).
Proof.
  intros Hp. apply Forall_forall. intros [window i] Hin Hpos.
  apply visits_index in Hin.
  unfold window_ratio, window_span in *. simpl fst in *. simpl snd in *.
  apply boundaries_ok. split; [assumption|].
  apply (slice_nonempty _ i (i + window) Hin).
  intros Hnil. rewrite Hnil in Hpos.
  exact (Qlt_not_le _ _ Hpos (ratio_empty pattern Hp)).
Qed.

End Fuzzy_path.

(** The model of [difflib] gives [0] when only the first string is empty. *)
Lemma Difflib_ratio_empty (p : str) : p <> [] -> (Difflib.ratio [] p <= 0)%Q.
Proof.
  intros Hp. unfold Difflib.ratio.
  destruct p as [| c p]; [congruence|].
  cbn [length Nat.add Nat.eqb Difflib.matches Difflib.find_longest_match
       Difflib.scan_a Difflib.extend_back Difflib.extend_fwd skipn].
  unfold Qle. simpl. lia.
Qed.

(** C7.  For cutoffs [c1 <= c2]: a span found under [c2] is returned under
    [c1] with the same start and end offsets (and the same ratio), and a
    search that finds nothing under [c1] finds nothing under [c2].
    [ratio_empty] is the behaviour of [SequenceMatcher] the loop relies on
    to stay inside its lists: an empty window has ratio [0.0] against a
    non-empty pattern. *)
Theorem cutoff_monotone (ratio_fn : str -> str -> Q) (text pattern : str)
  (c1 c2 : Q)
  (ratio_empty : forall p, p <> [] -> (ratio_fn [] p <= 0)%Q)
  (c1_le_c2 : (c1 <= c2)%Q) :
  (forall s e r,
     find_best_match ratio_fn text pattern c2 = OK (Some s, Some e, r) ->
     find_best_match ratio_fn text pattern c1 = OK (Some s, Some e, r))
  /\ (find_best_match ratio_fn text pattern c1 = OK (None, None, 0%Q) ->
      find_best_match ratio_fn text pattern c2 = OK (None, None, 0%Q)).
Proof.
  destruct (find text pattern) as [start|] eqn:Hfind.
  - unfold find_best_match. rewrite Hfind. split; [auto | discriminate].
  - assert (Hp : pattern <> []).
    { intros ->. rewrite find_empty in Hfind. discriminate. }
    rewrite !(find_best_match_scan ratio_fn text pattern _ Hfind).
    apply scan_cutoff_monotone; [exact c1_le_c2|].
    apply visits_recordable; assumption.
Qed.

Lemma cutoff_monotone_witness :
  find_best_match Difflib.ratio (py "read thisbook carefully")
                  (py "this book") (1 # 2)
  = OK (Some 5, Some 14, 16 # 17).
Proof.
  apply (cutoff_monotone Difflib.ratio (py "read thisbook carefully")
           (py "this book") (1 # 2) (6 # 10)).
  - exact Difflib_ratio_empty.
  - unfold Qle. simpl. lia.
  - vm_compute. reflexivity.
Defined.

(** ** Exact matches and the round trip (C1) *)


Lemma startswith_firstn (s p : str) :
  startswith s p = true <-> firstn (length p) s = p.
Proof.
  revert s. induction p as [| c p IH]; intros s; simpl; [tauto|].
  destruct s as [| d s]; [split; discriminate|]. simpl.
  rewrite andb_true_iff, Ascii.eqb_eq, IH. split.
  - intros [-> ->]. reflexivity.
  - intros H. injection H as -> H. auto.
Qed.

(** [find] returns the first index where [sub] occurs. *)
Lemma find_first (sub : str) (s : str) :
  forall i, find s sub = Some i ->
    firstn (length sub) (skipn i s) = sub
    /\ (i + length sub <= length s)%nat
    /\ forall j, (j < i)%nat -> firstn (length sub) (skipn j s) <> sub.
Proof.
  induction s as [| c s IH]; intros i H; simpl in H.
  - destruct (startswith [] sub) eqn:E; [|discriminate].
    injection H as <-. destruct sub; [|discriminate].
    repeat split; [simpl; lia | intros j Hj; lia].
  - destruct (startswith (c :: s) sub) eqn:E.
    + injection H as <-. apply startswith_firstn in E.
      repeat split; [exact E | | intros j Hj; lia].
      rewrite <- E at 1. rewrite length_firstn. simpl length. lia.
    + destruct (find s sub) as [k|] eqn:Ek; [|discriminate].
      injection H as <-. destruct (IH k eq_refl) as (H1 & H2 & H3).
      repeat split; [exact H1 | simpl; lia |].
      intros [| j] Hj.
      * simpl skipn. intros Hc. apply startswith_firstn in Hc. congruence.
      * simpl skipn. apply H3. lia.
Qed.













(** ** Marker injection (C9) *)










Definition span_at (s e : nat) : Highlight :=
  mkHighlight [] [] None None (Some s) (Some e) None.






(** * Further properties of the code *)

(** ** The flattener: cursor and map *)

Lemma advance_ge (needle rest : str) :
  forall pos, (pos <= advance rest needle pos)%nat.
Proof.
  induction rest as [| c rest IH]; intros pos; cbn [advance]; [lia|].
  destruct (startswith (c :: rest) needle); [lia|].
  specialize (IH (S pos)). lia.
Qed.

Lemma search_ge (html_content needle : str) (pos : nat) :
  (pos <= search html_content needle pos)%nat.
Proof. apply advance_ge. Qed.






(** The invariant of the walk: the map is strictly increasing and all its
    entries are below the cursor. *)
Definition ordered (st : walk) : Prop :=
  StronglySorted lt (position_map st)
  /\ Forall (fun p => (p < html_pos st)%nat) (position_map st).

Lemma StronglySorted_lt_app (l1 l2 : list nat) (bound : nat) :
  StronglySorted lt l1 -> StronglySorted lt l2 ->
  Forall (fun p => (p < bound)%nat) l1 ->
  Forall (fun p => (bound <= p)%nat) l2 ->
  StronglySorted lt (l1 ++ l2).
Proof.
  intros H1 H2 B1 B2. induction H1 as [| x l1 Hs IH Hx]; simpl; [exact H2|].
  inversion B1 as [| ? ? Bx Bl]; subst.
  constructor; [apply IH; assumption|].
  apply Forall_app. split; [exact Hx|].
  eapply Forall_impl; [|exact B2]. simpl. intros y Hy. lia.
Qed.

Lemma seq_StronglySorted (n : nat) :
  forall a, StronglySorted lt (seq a n).
Proof.
  induction n as [| n IH]; intros a; simpl; constructor; [apply IH|].
  apply Forall_forall. intros y Hy. apply in_seq in Hy. lia.
Qed.

Lemma process_string_ordered (html_content node_str : str) (st : walk) :
  ordered st ->
  ordered (process_string html_content node_str st)
  /\ (html_pos st <= html_pos (process_string html_content node_str st))%nat.
Proof.
  intros [Hs Hb]. unfold process_string.
  destruct (strip node_str) as [| c s] eqn:E.
  - unfold ordered. cbn [position_map html_pos].
    split; [|lia]. split; [exact Hs|].
    eapply Forall_impl; [|exact Hb]. simpl. intros p Hp. lia.
  - rewrite <- E. clear E.
    pose proof (search_ge html_content (escape node_str) (html_pos st)) as G1.
    pose proof (search_ge html_content (escape (strip node_str)) (html_pos st))
      as G2.
    destruct (length html_content <=? _)%nat;
      cbv beta iota zeta; unfold ordered; cbn [position_map html_pos];
      (split; [|lia]); (split;
        [ eapply StronglySorted_lt_app;
          [exact Hs | apply seq_StronglySorted | exact Hb |];
          apply Forall_forall; intros y Hy; apply in_seq in Hy; lia
        | apply Forall_app; split;
          [ eapply Forall_impl; [|exact Hb]; simpl; intros p Hp; lia
          | apply Forall_forall; intros y Hy; apply in_seq in Hy; lia ] ]).
Qed.

Lemma process_node_ordered (html_content : str) (node : Node) :
  forall parent st,
    ordered st ->
    ordered (process_node html_content parent node st)
    /\ (html_pos st <= html_pos (process_node html_content parent node st))%nat.
Proof.
  induction node as [s | name children IH] using Node_nested_ind;
    intros parent st H; cbn [process_node].
  - destruct (negb _); [apply process_string_ordered; exact H|].
    split; [exact H | lia].
  - revert st H. induction IH as [| child rest Hchild _ IHrest];
      intros st H; cbn [fold_left]; [split; [exact H | lia]|].
    destruct (Hchild name st H) as [H1 L1].
    destruct (IHrest _ H1) as [H2 L2]. split; [exact H2 | lia].
Qed.

Lemma position_map_sorted (soup : Node) (html_content : str) :
  StronglySorted lt (snd (html_to_text_map soup html_content)).
Proof.
  unfold html_to_text_map. cbn [snd].
  apply (process_node_ordered html_content soup [] (mkWalk [] [] 0)).
  split; constructor.
Qed.

(** The position map of every document has one entry per character of the
    plain text and is strictly increasing: a later character of the plain
    text never maps to an earlier source offset. *)
Theorem position_map_increasing (soup : Node) (html_content : str) :
  length (snd (html_to_text_map soup html_content))
  = length (fst (html_to_text_map soup html_content))
  /\ StronglySorted lt (snd (html_to_text_map soup html_content)).
Proof.
  split; [apply position_map_length | apply position_map_sorted].
Qed.

Definition is_string (n : Node) : Prop := exists s, n = NavigableString s.

(** The strings inside a [style] or [script] element contribute nothing,
    and the cursor does not move past them. *)
Theorem excluded_tag_leaves_walk (html_content parent name : str)
  (children : list Node) (st : walk)
  (Hname : in_tags name EXCLUDED_TAGS = true)
  (Hchildren : Forall is_string children) :
  process_node html_content parent (Tag name children) st = st.
Proof.
  cbn [process_node]. revert st.
  induction Hchildren as [| child rest [s ->] _ IH]; intros st;
    cbn [fold_left]; [reflexivity|].
  cbn [process_node]. rewrite Hname. cbn [negb]. apply IH.
Qed.

Lemma excluded_tag_leaves_walk_witness :
  process_node (py "<script>x = 1</script>") (py "[document]")
               (Tag (py "script") [NavigableString (py "x = 1")])
               (mkWalk [] [] 0)
  = mkWalk [] [] 0.
Proof.
  apply (excluded_tag_leaves_walk (py "<script>x = 1</script>")
           (py "[document]") (py "script") [NavigableString (py "x = 1")]
           (mkWalk [] [] 0)).
  - reflexivity.
  - repeat constructor. exists (py "x = 1"). reflexivity.
Defined.



(** ** The locator: what a found span is *)

Section Scan_facts.

Variable X : Type.
Variable key : X -> Q.
Variable act : X -> result (Z * Z).

(** The state after the loop is the state before it, or the record of a
    visit that passed the cutoff; its ratio is not below the one before;
    and every visit with a ratio above it is below the cutoff. *)
Lemma for_each_scan_best (c : Q) (l : list X) :
  forall b b',
    for_each (scan X key act c) l b = OK b' ->
    (snd b <= snd b')%Q
    /\ (b' = b
        \/ exists x span,
             In x l /\ act x = OK span
             /\ b' = (Some (fst span), Some (snd span), key x)
             /\ (c <= key x)%Q /\ (snd b < key x)%Q)
    /\ (forall x, In x l -> (key x <= snd b')%Q \/ (key x < c)%Q).
Proof.
  induction l as [| x l IH]; intros b b' H; simpl in H.
  - injection H as <-. split; [apply Qle_refl|]. split; [auto|].
    intros x [].
  - destruct (scan X key act c x b) as [b1 | err] eqn:E1; simpl in H;
      [|discriminate].
    destruct (IH b1 b' H) as (Hle & Hfrom & Hall).
    unfold scan in E1.
    destruct (Qlt_bool (snd b) (key x)) eqn:Elt.
    + destruct (Qle_bool c (key x)) eqn:Ele; simpl in E1.
      * apply Qlt_bool_true in Elt. apply Qle_bool_iff in Ele.
        destruct (act x) as [span | err] eqn:Ea; simpl in E1; [|discriminate].
        injection E1 as <-. simpl snd in *.
        split; [eapply Qle_trans; [apply Qlt_le_weak; exact Elt | exact Hle]|].
        split.
        -- right. destruct Hfrom as [-> | (y & sp & Hy & Hact & -> & Hc & Hlt)].
           ++ exists x, span. simpl. auto 10.
           ++ exists y, sp. simpl. repeat split; auto.
              eapply Qlt_trans; eauto.
        -- intros y [<- | Hy]; [left; exact Hle | apply Hall, Hy].
      * injection E1 as <-. split; [exact Hle|]. split.
        -- destruct Hfrom as [-> | (y & sp & Hy & Hact & -> & Hc & Hlt)];
             [left; reflexivity|].
           right. exists y, sp. simpl. auto 10.
        -- intros y [<- | Hy]; [|apply Hall, Hy]. right.
           apply Qnot_le_lt. intros Hc. apply Qle_bool_iff in Hc. congruence.
    + simpl in E1. injection E1 as <-. apply Qlt_bool_false in Elt.
      split; [exact Hle|]. split.
      * destruct Hfrom as [-> | (y & sp & Hy & Hact & -> & Hc & Hlt)];
          [left; reflexivity|].
        right. exists y, sp. simpl. auto 10.
      * intros y [<- | Hy]; [|apply Hall, Hy]. left.
        eapply Qle_trans; eauto.
Qed.

End Scan_facts.

(** On the fuzzy path a found span is the span of a visited window whose
    ratio reaches the cutoff, is positive, and is the largest ratio of all
    visited windows. *)
Theorem fuzzy_match_is_best_window (ratio_fn : str -> str -> Q)
  (text pattern : str) (cutoff : Q) (s e : Z) (r : Q)
  (Hfuzzy : find text pattern = None)
  (Hfound : find_best_match ratio_fn text pattern cutoff
            = OK (Some s, Some e, r)) :
  (cutoff <= r)%Q /\ (0 < r)%Q
  /\ (exists x,
        In x (visits (len (split pattern)) (len (split text)))
        /\ r = window_ratio ratio_fn text pattern x
        /\ window_span text pattern x = OK (s, e))
  /\ (forall x,
        In x (visits (len (split pattern)) (len (split text))) ->
        (window_ratio ratio_fn text pattern x <= r)%Q).
Proof.
  rewrite (find_best_match_scan ratio_fn text pattern cutoff Hfuzzy) in Hfound.
  destruct (for_each_scan_best _ _ _ _ _ _ _ Hfound) as (_ & Hfrom & Hall).
  destruct Hfrom as [Heq | (x & span & Hx & Hact & Heq & Hc & Hlt)];
    [discriminate|].
  injection Heq as -> -> ->. simpl in Hlt.
  split; [exact Hc|]. split; [exact Hlt|]. split.
  - exists x. split; [exact Hx|]. split; [reflexivity|].
    rewrite Hact. destruct span; reflexivity.
  - intros y Hy. destruct (Hall y Hy) as [H | H]; [exact H|].
    apply Qlt_le_weak. eapply Qlt_le_trans; eauto.
Qed.

Lemma fuzzy_match_is_best_window_witness :
  (6 # 10 <= 16 # 17)%Q /\ (0 < 16 # 17)%Q.
Proof.
  destruct (fuzzy_match_is_best_window Difflib.ratio
              (py "read thisbook carefully") (py "this book")
              default_cutoff 5 14 (16 # 17)) as (H1 & H2 & _).
  - reflexivity.
  - vm_compute. reflexivity.
  - split; assumption.
Defined.

(** With a ratio that is [0] for an empty window, [find_best_match] never
    raises; it returns both offsets or neither; and when it finds nothing
    on the fuzzy path, every visited window has a ratio below the cutoff
    or not above [0]. *)
Theorem find_best_match_never_raises (ratio_fn : str -> str -> Q)
  (text pattern : str) (cutoff : Q)
  (ratio_empty : forall p, p <> [] -> (ratio_fn [] p <= 0)%Q) :
  exists res,
    find_best_match ratio_fn text pattern cutoff = OK res
    /\ ((exists s e r, res = (Some s, Some e, r))
        \/ (res = (None, None, 0%Q)
            /\ find text pattern = None
            /\ forall x,
                 In x (visits (len (split pattern)) (len (split text))) ->
                 (window_ratio ratio_fn text pattern x <= 0)%Q
                 \/ (window_ratio ratio_fn text pattern x < cutoff)%Q)).
Proof.
  destruct (find text pattern) as [start|] eqn:Hfind.
  - unfold find_best_match. rewrite Hfind. eexists. split; [reflexivity|].
    left. eauto.
  - assert (Hp : pattern <> []).
    { intros ->. rewrite find_empty in Hfind. discriminate. }
    rewrite (find_best_match_scan ratio_fn text pattern cutoff Hfind).
    destruct (for_each_scan_total _ (window_ratio ratio_fn text pattern)
                (window_span text pattern) cutoff _
                (visits_recordable ratio_fn ratio_empty text pattern Hp)
                (nothing) (Qle_refl 0)) as (res & Hres & Hshape).
    exists res. split; [exact Hres|].
    destruct Hshape as [-> | Hsome]; [|left; exact Hsome].
    right. split; [reflexivity|]. split; [reflexivity|].
    destruct (for_each_scan_best _ _ _ _ _ _ _ Hres) as (_ & _ & Hall).
    exact Hall.
Qed.

Lemma find_best_match_never_raises_witness :
  exists res,
    find_best_match Difflib.ratio (py "one two three") (py "zzz") default_cutoff
    = OK res.
Proof.
  destruct (find_best_match_never_raises Difflib.ratio (py "one two three")
              (py "zzz") default_cutoff Difflib_ratio_empty)
    as (res & Hres & _).
  exists res. exact Hres.
Defined.

(** ** The locator: a found span lies inside the text *)

Lemma join_length_app (sep : str) (l1 l2 : list str) :
  length (join sep (l1 ++ l2))
  = (length (join sep l1) + length (join sep l2)
     + match l1, l2 with
       | _ :: _, _ :: _ => length sep
       | _, _ => 0
       end)%nat.
Proof.
  induction l1 as [| x l1 IH]; [simpl; destruct l2; lia|].
  destruct l1 as [| y l1].
  - destruct l2 as [| z l2]; [simpl; lia|].
    change (([x] ++ z :: l2)) with (x :: z :: l2).
    rewrite join_cons. cbn [join]. rewrite !length_app. lia.
  - change ((x :: y :: l1) ++ l2) with (x :: y :: (l1 ++ l2)).
    rewrite !join_cons, !length_app.
    change (y :: l1 ++ l2) with ((y :: l1) ++ l2). rewrite IH.
    destruct l2; lia.
Qed.

Lemma join_firstn_le (sep : str) (l : list str) (k : nat) :
  (length (join sep (firstn k l)) <= length (join sep l))%nat.
Proof.
  rewrite <- (firstn_skipn k l) at 2. rewrite join_length_app. lia.
Qed.

Lemma extend_start_bounds (text : str) (n : nat) :
  forall z, extend_start text n = OK z -> 0 <= z <= Z.of_nat n.
Proof.
  induction n as [| n IH]; intros z H; cbn [extend_start] in H.
  - injection H as <-. lia.
  - destruct (getitem text (Z.of_nat n)) as [c|]; simpl in H; [|discriminate].
    destruct (isalnum c).
    + apply IH in H. lia.
    + injection H as <-. lia.
Qed.

Lemma extend_end_bounds (text : str) (todo : nat) :
  forall e z,
    extend_end text todo e = OK z ->
    e <= z /\ (e <= len text -> z <= len text).
Proof.
  induction todo as [| todo IH]; intros e z H; cbn [extend_end] in H.
  - injection H as <-. lia.
  - destruct (e <? len text) eqn:E.
    + apply Z.ltb_lt in E.
      destruct (getitem text (e - 1)) as [c|]; simpl in H; [|discriminate].
      destruct (isalnum c).
      * apply IH in H. lia.
      * injection H as <-. lia.
    + injection H as <-. lia.
Qed.

Lemma getitem_ok_range {A} (l : list A) (i : Z) (x : A) :
  getitem l i = OK x -> - len l <= i < len l.
Proof.
  unfold getitem. intros H.
  destruct (i <? 0) eqn:E; [apply Z.ltb_lt in E | apply Z.ltb_ge in E];
    destruct ((0 <=? _) && (_ <? len l)) eqn:E'; try discriminate;
    apply andb_true_iff in E'; destruct E' as [E1 E2];
    apply Z.leb_le in E1; apply Z.ltb_lt in E2; lia.
Qed.

Lemma getitem_nonneg {A} (l : list A) (i : Z) (x : A) :
  0 <= i -> getitem l i = OK x -> nth_error l (Z.to_nat i) = Some x.
Proof.
  intros Hi H. unfold getitem in H.
  replace (i <? 0) with false in H by (symmetry; apply Z.ltb_ge; lia).
  destruct ((0 <=? i) && (i <? len l)); [|discriminate].
  destruct (nth_error l (Z.to_nat i)); [|discriminate].
  injection H as <-. reflexivity.
Qed.

(** The words before word [i], the separator after them and any run of
    words from word [i] on fit in the join of all the words. *)
Lemma window_fits (ws : list str) (i k : nat) :
  (i < length ws)%nat ->
  (length (join [" "%char] (firstn i ws)) + (if (0 <? i)%nat then 1 else 0)
   + length (join [" "%char] (firstn k (skipn i ws)))
   <= length (join [" "%char] ws))%nat.
Proof.
  intros Hi.
  pose proof (join_firstn_le [" "%char] (skipn i ws) k) as H1.
  pose proof (join_length_app [" "%char] (firstn i ws) (skipn i ws)) as H2.
  rewrite firstn_skipn in H2.
  assert (Hskip : length (skipn i ws) <> O) by (rewrite length_skipn; lia).
  assert (Hfirst : length (firstn i ws) = i) by (rewrite length_firstn; lia).
  destruct (skipn i ws) as [| w rest]; [simpl in Hskip; congruence|].
  destruct (firstn i ws) as [| f fs]; simpl length in Hfirst.
  - subst i. simpl in *. lia.
  - subst i. simpl in *. lia.
Qed.

Lemma slice_window {A} (l : list A) (i hi : Z) :
  0 <= i <= len l ->
  exists k, slice l i hi = firstn k (skipn (Z.to_nat i) l).
Proof.
  intros Hi. unfold slice, slice_bound.
  replace (i <? 0) with false by (symmetry; apply Z.ltb_ge; lia).
  rewrite (Z.min_l i) by lia. eexists. reflexivity.
Qed.

Lemma boundaries_bounds (text first_pattern_word : str) (i hi : Z)
  (s e : Z) :
  0 <= i ->
  boundaries text (split text) first_pattern_word
             (join (py " ") (slice (split text) i hi)) i = OK (s, e) ->
  0 <= s <= e /\ e <= len text.
Proof.
  intros Hi H. unfold boundaries in H.
  destruct (getitem (split text) i) as [w|] eqn:Ew; simpl in H; [|discriminate].
  apply getitem_ok_range in Ew.
  rewrite slice_prefix in H by lia.
  destruct (slice_window (split text) i hi) as [k Hk]; [lia|].
  rewrite Hk in H. change (py " ") with [" "%char] in H.
  pose proof (window_fits (split text) (Z.to_nat i) k) as Hfit.
  pose proof (split_ws_from_join_length text []) as Hlen.
  fold (split text) in Hlen. change (py " ") with [" "%char] in Hlen.
  simpl length in Hlen. unfold len in *.
  set (n1 := length (join [" "%char] (firstn (Z.to_nat i) (split text)))) in *.
  set (n2 := length (join [" "%char]
                        (firstn k (skipn (Z.to_nat i) (split text))))) in *.
  assert (Hfit' : Z.of_nat n1 + (if 0 <? i then 1 else 0) + Z.of_nat n2
                  <= Z.of_nat (length text)).
  { specialize (Hfit ltac:(lia)).
    destruct (0 <? i) eqn:E0; [apply Z.ltb_lt in E0 | apply Z.ltb_ge in E0];
      destruct (0 <? Z.to_nat i)%nat eqn:E1;
      try (apply Nat.ltb_lt in E1); try (apply Nat.ltb_ge in E1); lia. }
  set (start := Z.of_nat n1 + (if 0 <? i then 1 else 0)) in *.
  assert (H0 : 0 <= start) by (subst start; destruct (0 <? i); lia).
  destruct (if negb (startswith w first_pattern_word)
            then extend_start text (Z.to_nat start) else OK start)
    as [s'|] eqn:Es; simpl in H; [|discriminate].
  assert (Hs : 0 <= s' <= start).
  { destruct (negb _); [|injection Es as <-; lia].
    apply extend_start_bounds in Es. lia. }
  destruct (extend_end text _ (start + Z.of_nat n2)) as [e'|] eqn:Ee;
    simpl in H; [|discriminate].
  apply extend_end_bounds in Ee. injection H as <- <-.
  unfold len in *. lia.
Qed.

(** On the fuzzy path a found span is recorded from a visited window. *)
Lemma fuzzy_found_window (ratio_fn : str -> str -> Q) (text pattern : str)
  (cutoff : Q) (s e : Z) (r : Q) :
  find text pattern = None ->
  find_best_match ratio_fn text pattern cutoff = OK (Some s, Some e, r) ->
  (cutoff <= r)%Q /\ (0 < r)%Q
  /\ (exists x,
        In x (visits (len (split pattern)) (len (split text)))
        /\ r = window_ratio ratio_fn text pattern x
        /\ window_span text pattern x = OK (s, e))
  /\ (forall x,
        In x (visits (len (split pattern)) (len (split text))) ->
        (window_ratio ratio_fn text pattern x <= r)%Q).
Proof.
  intros Hfuzzy Hfound.
  rewrite (find_best_match_scan ratio_fn text pattern cutoff Hfuzzy) in Hfound.
  destruct (for_each_scan_best _ _ _ _ _ _ _ Hfound) as (_ & Hfrom & Hall).
  destruct Hfrom as [Heq | (x & span & Hx & Hact & Heq & Hc & Hlt)];
    [discriminate|].
  injection Heq as -> -> ->. simpl in Hlt.
  split; [exact Hc|]. split; [exact Hlt|]. split.
  - exists x. split; [exact Hx|]. split; [reflexivity|].
    rewrite Hact. destruct span; reflexivity.
  - intros y Hy. destruct (Hall y Hy) as [H | H]; [exact H|].
    apply Qlt_le_weak. eapply Qlt_le_trans; eauto.
Qed.

Lemma span_in_text (ratio_fn : str -> str -> Q)
  (text pattern : str) (cutoff : Q) (s e : Z) (r : Q) :
  find_best_match ratio_fn text pattern cutoff = OK (Some s, Some e, r) ->
  0 <= s <= e /\ e <= len text.
Proof.
  intros Hfound. destruct (find text pattern) as [start|] eqn:Hfind.
  - unfold find_best_match in Hfound. rewrite Hfind in Hfound.
    injection Hfound as <- <- _.
    destruct (find_first pattern text start Hfind) as (_ & Hfit & _).
    unfold len. lia.
  - destruct (fuzzy_found_window ratio_fn text pattern cutoff s e r
                Hfind Hfound) as (_ & _ & ([window i] & Hin & _ & Hspan) & _).
    apply visits_index in Hin. unfold window_span in Hspan. simpl in Hspan.
    eapply boundaries_bounds; eauto.
Qed.

(** Every span [find_best_match] reports lies inside the text:
    [0 <= start <= end <= len(text)]. *)
Theorem found_span_in_text (ratio_fn : str -> str -> Q)
  (text pattern : str) (cutoff : Q) (s e : Z) (r : Q)
  (Hfound : find_best_match ratio_fn text pattern cutoff
            = OK (Some s, Some e, r)) :
  0 <= s <= e /\ e <= len text.
Proof. exact (span_in_text ratio_fn text pattern cutoff s e r Hfound). Qed.

Lemma found_span_in_text_witness : 0 <= 5 <= 14 /\ 14 <= 23.
Proof.
  apply (found_span_in_text Difflib.ratio (py "read thisbook carefully")
           (py "this book") default_cutoff 5 14 (16 # 17)).
  vm_compute. reflexivity.
Defined.

(** ** The remapper *)

Lemma find_best_match_ok (ratio_fn : str -> str -> Q) (text pattern : str)
  (cutoff : Q) :
  (forall p, p <> [] -> (ratio_fn [] p <= 0)%Q) ->
  exists res, find_best_match ratio_fn text pattern cutoff = OK res.
Proof.
  intros ratio_empty. destruct (find text pattern) as [start|] eqn:Hfind.
  - unfold find_best_match. rewrite Hfind. eauto.
  - assert (Hp : pattern <> []).
    { intros ->. rewrite find_empty in Hfind. discriminate. }
    rewrite (find_best_match_scan ratio_fn text pattern cutoff Hfind).
    destruct (for_each_scan_total _ (window_ratio ratio_fn text pattern)
                (window_span text pattern) cutoff _
                (visits_recordable ratio_fn ratio_empty text pattern Hp)
                (nothing) (Qle_refl 0)) as (res & Hres & _).
    eauto.
Qed.

Lemma StronglySorted_nth_le (l : list nat) :
  StronglySorted lt l ->
  forall i j a b,
    (i <= j)%nat -> nth_error l i = Some a -> nth_error l j = Some b ->
    (a <= b)%nat.
Proof.
  induction 1 as [| x l Hs IH Hx]; intros i j a b Hij Ha Hb.
  - destruct i; discriminate.
  - destruct i as [| i]; destruct j as [| j]; simpl in *; try lia.
    + injection Ha as <-. injection Hb as <-. lia.
    + injection Ha as <-. apply nth_error_In in Hb.
      rewrite Forall_forall in Hx. specialize (Hx b Hb). lia.
    + eapply IH; [|eassumption|eassumption]. lia.
Qed.

(** What [find_markdown_in_html] returns: nothing at all with ratio [0],
    or a start and an end offset that are entries of the position map with
    [html_start <= html_end], and the slice of the source between them. *)
Lemma remap_result (ratio_fn : str -> str -> Q) (soup : Node)
  (html_content md_text : str)
  (res : option str * option nat * option nat * Q) :
  find_markdown_in_html ratio_fn soup html_content md_text = OK res ->
  res = (None, None, None, 0%Q)
  \/ exists html_start html_end r,
       res = (Some (firstn (html_end - html_start)
                           (skipn html_start html_content)),
              Some html_start, Some html_end, r)
       /\ (html_start <= html_end)%nat
       /\ In html_start (snd (html_to_text_map soup html_content))
       /\ In html_end (snd (html_to_text_map soup html_content)).
Proof.
  unfold find_markdown_in_html.
  pose proof (position_map_sorted soup html_content) as Hsorted.
  destruct (html_to_text_map soup html_content) as [html_text pm].
  cbn [snd] in *.
  destruct (find_best_match ratio_fn html_text md_text default_cutoff)
    as [[[os oe] r] | err] eqn:Hfind; cbn [bind]; [|discriminate].
  destruct os as [s|]; [|intros H; injection H as <-; left; reflexivity].
  destruct oe as [e|]; [|intros H; injection H as <-; left; reflexivity].
  apply span_in_text in Hfind.
  set (si := Z.max 0 (Z.min s (len pm - 1))).
  set (ei := Z.max 0 (Z.min e (len pm - 1))).
  destruct (getitem pm si) as [hs|] eqn:Es; cbn [bind]; [|discriminate].
  destruct (getitem pm ei) as [he|] eqn:Ee; cbn [bind]; [|discriminate].
  intros H. injection H as <-. right. exists hs, he, r.
  apply getitem_nonneg in Es; [|subst si; lia].
  apply getitem_nonneg in Ee; [|subst ei; lia].
  split; [reflexivity|]. split.
  - eapply (StronglySorted_nth_le pm Hsorted); [|exact Es|exact Ee].
    subst si ei. lia.
  - split; eapply nth_error_In; eassumption.
Qed.

(** When [find_markdown_in_html] reports a match, the two offsets are
    entries of the position map, the start is not after the end, and the
    returned markup is the slice of the source between them; otherwise all
    three are [None] and the ratio is [0]. *)
Theorem remapped_span_ordered (ratio_fn : str -> str -> Q) (soup : Node)
  (html_content md_text : str)
  (res : option str * option nat * option nat * Q)
  (Hres : find_markdown_in_html ratio_fn soup html_content md_text = OK res) :
  res = (None, None, None, 0%Q)
  \/ exists html_start html_end r,
       res = (Some (firstn (html_end - html_start)
                           (skipn html_start html_content)),
              Some html_start, Some html_end, r)
       /\ (html_start <= html_end)%nat
       /\ In html_start (snd (html_to_text_map soup html_content))
       /\ In html_end (snd (html_to_text_map soup html_content)).
Proof. exact (remap_result ratio_fn soup html_content md_text res Hres). Qed.

Lemma remapped_span_ordered_witness :
  (None, None, None, 0%Q)
  = (@None str, @None nat, @None nat, 0%Q)
  \/ exists html_start html_end r,
       (@None str, @None nat, @None nat, 0%Q)
       = (Some (firstn (html_end - html_start)
                       (skipn html_start (py "<p>abc</p>"))),
          Some html_start, Some html_end, r)
       /\ (html_start <= html_end)%nat
       /\ In html_start
             (snd (html_to_text_map
                     (document [Tag (py "p") [NavigableString (py "abc")]])
                     (py "<p>abc</p>")))
       /\ In html_end
             (snd (html_to_text_map
                     (document [Tag (py "p") [NavigableString (py "abc")]])
                     (py "<p>abc</p>"))).
Proof.
  apply (remapped_span_ordered Difflib.ratio
           (document [Tag (py "p") [NavigableString (py "abc")]])
           (py "<p>abc</p>") (py "zzz")).
  vm_compute. reflexivity.
Defined.

(** With a ratio that is [0] for an empty window and a document whose
    flattened text is not empty, [find_markdown_in_html] never raises. *)
Theorem find_markdown_in_html_never_raises (ratio_fn : str -> str -> Q)
  (soup : Node) (html_content md_text : str)
  (ratio_empty : forall p, p <> [] -> (ratio_fn [] p <= 0)%Q)
  (Htext : fst (html_to_text_map soup html_content) <> []) :
  exists res,
    find_markdown_in_html ratio_fn soup html_content md_text = OK res.
Proof.
  unfold find_markdown_in_html.
  pose proof (position_map_length soup html_content) as Hlen.
  destruct (html_to_text_map soup html_content) as [html_text pm].
  cbn [fst snd] in *.
  destruct (find_best_match_ok ratio_fn html_text md_text default_cutoff
              ratio_empty) as [[[os oe] r] ->].
  cbn [bind].
  assert (Hpm : pm <> []).
  { intros ->. destruct html_text; [congruence | discriminate]. }
  destruct os as [s|]; [|eauto]. destruct oe as [e|]; [|eauto].
  destruct (clamped_getitem_ok pm s Hpm) as [hs ->].
  destruct (clamped_getitem_ok pm e Hpm) as [he ->].
  cbn [bind]. eauto.
Qed.

Lemma find_markdown_in_html_never_raises_witness :
  exists res,
    find_markdown_in_html Difflib.ratio
      (document [Tag (py "p") [NavigableString (py "abc")]])
      (py "<p>abc</p>") (py "zzz") = OK res.
Proof.
  apply (find_markdown_in_html_never_raises Difflib.ratio
           (document [Tag (py "p") [NavigableString (py "abc")]])
           (py "<p>abc</p>") (py "zzz") Difflib_ratio_empty).
  discriminate.
Defined.

(** ** The marker injector *)

Lemma marker_lengths :
  length START_MARKER = 50%nat /\ length END_MARKER = 48%nat.
Proof. split; reflexivity. Qed.

Lemma firstn_plus {A} (a b : nat) :
  forall l : list A, firstn (a + b) l = firstn a l ++ firstn b (skipn a l).
Proof.
  induction a as [| a IH]; intros l; [reflexivity|].
  destruct l as [| x l]; simpl; [rewrite firstn_nil; reflexivity|].
  rewrite IH. reflexivity.
Qed.

Lemma add_highlight_tag_split (content : str) (highlight : Highlight)
  (s e : nat) :
  start_index highlight = Some s -> end_index highlight = Some e ->
  (s <= e)%nat ->
  exists pre mid post,
    content = pre ++ mid ++ post
    /\ add_highlight_tag content highlight
       = pre ++ START_MARKER ++ mid ++ END_MARKER ++ post
    /\ length pre = Nat.min s (length content).
Proof.
  intros Hs He Hle. unfold add_highlight_tag. rewrite Hs, He.
  cbn [slice_to slice_from].
  exists (firstn s content), (firstn (e - s) (skipn s content)),
    (skipn e content).
  split; [|split; [reflexivity | apply length_firstn]].
  replace (skipn e content) with (skipn (e - s) (skipn s content))
    by (rewrite skipn_skipn; f_equal; lia).
  rewrite firstn_skipn, firstn_skipn. reflexivity.
Qed.

(** For offsets [start <= end], also past the end of the content (slices
    clamp), [add_highlight_tag] inserts the two markers into the content
    and changes nothing else: removing them gives the content back, and
    the result is 98 characters longer.  For [end < start] nothing lies
    between the markers and the characters [content[end:start]] appear on
    both sides of them. *)
Theorem add_highlight_tag_inserts_markers (content : str)
  (highlight : Highlight) (s e : nat)
  (Hstart : start_index highlight = Some s)
  (Hend : end_index highlight = Some e) :
  ((s <= e)%nat ->
   (exists pre mid post,
      content = pre ++ mid ++ post
      /\ add_highlight_tag content highlight
         = pre ++ START_MARKER ++ mid ++ END_MARKER ++ post
      /\ length pre = Nat.min s (length content))
   /\ length (add_highlight_tag content highlight)
      = (length content + 98)%nat)
  /\ ((e < s)%nat ->
      add_highlight_tag content highlight
      = firstn s content ++ START_MARKER ++ END_MARKER ++ skipn e content
      /\ firstn s content
         = firstn e content ++ firstn (s - e) (skipn e content)).
Proof.
  split.
  - intros Hle.
    destruct (add_highlight_tag_split content highlight s e Hstart Hend Hle)
      as (pre & mid & post & Hc & Hout & Hpre).
    split; [eauto 10|].
    rewrite Hout, Hc, !length_app.
    destruct marker_lengths as [-> ->]. lia.
  - intros Hlt. unfold add_highlight_tag. rewrite Hstart, Hend.
    cbn [slice_to slice_from].
    replace (e - s)%nat with O by lia. rewrite firstn_O. split; [reflexivity|].
    replace s with (e + (s - e))%nat at 1 by lia. apply firstn_plus.
Qed.

Lemma add_highlight_tag_inserts_markers_witness :
  length (add_highlight_tag (py "abcdef") (span_at 2 9)) = (6 + 98)%nat.
Proof.
  apply (add_highlight_tag_inserts_markers (py "abcdef") (span_at 2 9) 2 9
           eq_refl eq_refl).
  lia.
Defined.

(** ** The placement loop *)

Section Placement_facts.

Variable ratio_fn : str -> str -> Q.
Variable BeautifulSoup : str -> Node.
Variable markdown_text : str -> str.

Definition placed (h : Highlight) : bool := truthy_index (start_index h).

Definition same_record (h h' : Highlight) : Prop :=
  quote h' = quote h /\ labels h' = labels h /\ notes h' = notes h.

(** One iteration: the highlight is appended with its quote, labels and
    notes unchanged; either it is placed and the content grows by the two
    markers, or the content is kept and one message is printed. *)
Lemma place_step (h : Highlight) (content : str) (done : list Highlight)
  (printed : list str) (st' : placement_state) :
  place ratio_fn BeautifulSoup markdown_text h (content, done, printed)
  = OK st' ->
  exists content' h' printed',
    st' = (content', done ++ [h'], printed')
    /\ same_record h h'
    /\ ((placed h' = true /\ printed' = printed
         /\ length content' = (length content + 98)%nat)
        \/ (placed h' = false /\ content' = content
            /\ printed' = printed ++ [failure_message h])).
Proof.
  unfold place.
  destruct (find_markdown_in_html ratio_fn (BeautifulSoup content) content
              (markdown_text (quote h))) as [res | err] eqn:Hres;
    cbn [bind]; [|discriminate].
  destruct (remap_result _ _ _ _ _ Hres)
    as [-> | (hs & he & r & -> & Hle & _ & _)].
  - cbn. intros H. injection H as <-.
    eexists _, _, _. split; [reflexivity|].
    split; [repeat split|]. right. auto.
  - cbv beta iota zeta. cbn [start_index].
    destruct (truthy_index (Some hs)) eqn:Et; intros H; injection H as <-;
      eexists _, _, _; (split; [reflexivity|]);
      (split; [repeat split|]).
    + left. split; [exact Et|]. split; [reflexivity|].
      destruct (add_highlight_tag_split content
                  (mkHighlight (quote h) (labels h) (notes h)
                     (Some (firstn (he - hs) (skipn hs content)))
                     (Some hs) (Some he) (Some r)) hs he eq_refl eq_refl Hle)
        as (pre & mid & post & Hc & Hout & _).
      rewrite Hout. apply (f_equal (@length ascii)) in Hc.
      rewrite !length_app in *.
      destruct marker_lengths as [-> ->]. lia.
    + right. split; [exact Et|]. auto.
Qed.

Lemma place_all (hs : list Highlight) :
  forall content done printed content' done' printed',
    for_each (place ratio_fn BeautifulSoup markdown_text) hs
             (content, done, printed) = OK (content', done', printed') ->
    exists new,
      done' = done ++ new
      /\ Forall2 same_record hs new
      /\ length content'
         = (length content + 98 * length (filter placed new))%nat
      /\ length printed'
         = (length printed + length (filter (fun h => negb (placed h)) new))%nat.
Proof.
  induction hs as [| h hs IH];
    intros content done printed content' done' printed' H;
    cbn [for_each] in H.
  - injection H as <- <- <-. exists []. rewrite app_nil_r. simpl.
    repeat split; [constructor | lia | lia].
  - destruct (place ratio_fn BeautifulSoup markdown_text h
                (content, done, printed)) as [st1 | err] eqn:E1;
      cbn [bind] in H; [|discriminate].
    destruct (place_step _ _ _ _ _ E1)
      as (c1 & h1 & p1 & -> & Hsame & Hcase).
    destruct (IH _ _ _ _ _ _ H) as (new & -> & Hall & Hlen & Hprinted).
    exists (h1 :: new). rewrite <- app_assoc. split; [reflexivity|].
    split; [constructor; assumption|].
    simpl filter.
    destruct Hcase as [(Hp & -> & Hc) | (Hp & -> & ->)]; rewrite Hp; simpl.
    + rewrite Hlen, Hc, Hprinted. lia.
    + rewrite Hlen, Hprinted, length_app. simpl. lia.
Qed.

End Placement_facts.

(** When [process_highlights_in_content] returns, every highlight was
    visited once and in order, with its quote, labels and notes unchanged;
    the content is 98 characters longer for each placed highlight; and one
    failure message was printed for each highlight that was not placed. *)
Theorem process_highlights_in_content_accounts
  (ratio_fn : str -> str -> Q) (BeautifulSoup : str -> Node)
  (markdown_text : str -> str) (content : str) (highlights_data : Highlights)
  (content' : str) (done : list Highlight) (printed : list str)
  (Hrun : process_highlights_in_content ratio_fn BeautifulSoup markdown_text
            content highlights_data = OK (content', done, printed)) :
  Forall2 same_record (highlights highlights_data) done
  /\ length content' = (length content + 98 * length (filter placed done))%nat
  /\ length printed = length (filter (fun h => negb (placed h)) done)
  /\ (length (filter placed done) + length printed
      = length (highlights highlights_data))%nat.
Proof.
  unfold process_highlights_in_content in Hrun.
  destruct (place_all ratio_fn BeautifulSoup markdown_text _ _ _ _ _ _ _ Hrun)
    as (new & Hdone & Hall & Hlen & Hprinted).
  simpl in Hdone. subst new. simpl in Hprinted.
  split; [exact Hall|]. split; [exact Hlen|]. split; [exact Hprinted|].
  rewrite Hprinted, (Forall2_length Hall).
  clear. induction done as [| h done IH]; simpl; [reflexivity|].
  destruct (placed h); simpl; lia.
Qed.

Lemma process_highlights_in_content_accounts_witness :
  length (py "say <span data-omnivore-highlight-start=" ++ ["034"%char]
          ++ py "true" ++ ["034"%char] ++ py "></span>hello"
          ++ py "<span data-omnivore-highlight-end=" ++ ["034"%char]
          ++ py "true" ++ ["034"%char] ++ py "></span> you")
  = (length (py "say hello you")
     + 98 * length (filter placed
                      [mkHighlight (py "hello") [] None (Some (py "hello"))
                                   (Some 4%nat) (Some 9%nat) (Some 1%Q)]))%nat.
Proof.
  apply (process_highlights_in_content_accounts Difflib.ratio
           (fun _ => document [NavigableString (py "say hello you")])
           (fun q => q) (py "say hello you")
           (mkHighlights None [new_highlight (py "hello")])
           _ _ []).
  vm_compute. reflexivity.
Defined.

(** ** The reconciler ignores case *)

Lemma lower_char_idempotent (c : ascii) :
  lower_char (lower_char c) = lower_char c.
Proof. destruct c as [[] [] [] [] [] [] [] []]; reflexivity. Qed.

Lemma lower_idempotent (s : str) : lower (lower s) = lower s.
Proof.
  unfold lower. rewrite map_map. apply map_ext. apply lower_char_idempotent.
Qed.

Lemma max_by_ext (key key' : str -> Q) (l : list str) :
  (forall x, key x = key' x) ->
  forall best, max_by key best l = max_by key' best l.
Proof.
  intros H. induction l as [| x l IH]; intros best; simpl; [reflexivity|].
  rewrite !H. apply IH.
Qed.

(** The case of the target does not matter to [find_closest_match], and
    the similarity it maximises is the same for two strings and for their
    lower-case forms. *)
Theorem find_closest_match_ignores_case (ratio_fn : str -> str -> Q)
  (target : str) (candidates : list str) :
  find_closest_match ratio_fn (lower target) candidates
  = find_closest_match ratio_fn target candidates
  /\ forall a b,
       similarity ratio_fn (lower a) (lower b) = similarity ratio_fn a b.
Proof.
  assert (Hsim : forall a b,
             similarity ratio_fn (lower a) (lower b) = similarity ratio_fn a b).
  { intros a b. unfold similarity. rewrite !lower_idempotent. reflexivity. }
  split; [|exact Hsim].
  destruct candidates as [| c rest]; [reflexivity|]. simpl. f_equal.
  apply max_by_ext. intros x. unfold similarity.
  rewrite lower_idempotent. reflexivity.
Qed.

(** ** The note parser: what a record collects *)

Definition first_line (block : str) : str := hd [] (lines_of block).

Definition is_label_block (block : str) : bool :=
  negb (is_quote_block block) && startswith (first_line block) (py "#").

Definition is_note_block (block : str) : bool :=
  negb (is_quote_block block) && negb (startswith (first_line block) (py "#")).

Definition label_of (block : str) : str :=
  strip (lstrip (py "#") (first_line block)).

(** The notes after the free blocks [blocks], starting from [old]. *)
Definition notes_after (old : option str) (blocks : list str) : option str :=
  fold_left (fun o b => Some (append_note o (strip b))) blocks old.

Lemma parse_block_unfold (block : str) (st : parser_state) :
  parse_block block st
  = if is_quote_block block then
      OK (flush st, Some (new_highlight (quote_of_lines (lines_of block))))
    else if is_label_block block then
      match snd st with
      | Some h => OK (fst st, Some (add_label h (label_of block)))
      | None => OK st
      end
    else
      match snd st with
      | None =>
          OK (mkHighlights
                (Some (append_note (article_note (fst st)) (strip block)))
                (highlights (fst st)), None)
      | Some h =>
          OK (fst st, Some (set_notes h (append_note (notes h) (strip block))))
      end.
Proof.
  unfold parse_block, is_label_block, is_quote_block, label_of, first_line,
    lines_of.
  destruct (split_on_first "010" (strip block)) as (first & rest & ->).
  change (getitem (first :: rest) 0) with (OK first). cbn [bind hd].
  destruct (startswith first (py ">")); [reflexivity|]. cbn [negb andb].
  destruct (startswith first (py "#")); reflexivity.
Qed.

Definition not_quote (block : str) : Prop := is_quote_block block = false.

(** Blocks without a quote marker, met while a record is current, leave
    the result as it is and give the record, in order, the labels of the
    label blocks and the text of the other blocks. *)
Lemma parse_blocks_current (rest : list str) :
  Forall not_quote rest ->
  forall r h,
    for_each parse_block rest (r, Some h)
    = OK (r, Some (mkHighlight (quote h)
                     (labels h ++ map label_of (filter is_label_block rest))
                     (notes_after (notes h) (filter is_note_block rest))
                     (html h) (start_index h) (end_index h) (ratio h))).
Proof.
  induction 1 as [| b rest Hb _ IH]; intros r h; cbn [for_each].
  - simpl. rewrite app_nil_r. destruct h; reflexivity.
  - rewrite parse_block_unfold. unfold is_note_block, is_label_block in *.
    unfold not_quote in Hb. rewrite Hb. cbn [negb andb snd fst filter].
    rewrite Hb. cbn [negb andb].
    destruct (startswith (first_line b) (py "#")); cbn [bind negb];
      rewrite IH; simpl; rewrite <- ?app_assoc; reflexivity.
Qed.

(** Blocks without a quote marker, met before any record, create no
    record: label blocks are dropped and the other blocks are appended to
    the article note. *)
Lemma parse_blocks_no_record (rest : list str) :
  Forall not_quote rest ->
  forall note hs,
    for_each parse_block rest (mkHighlights note hs, None)
    = OK (mkHighlights (match filter is_note_block rest with
                        | [] => note
                        | _ :: _ =>
                            notes_after note (filter is_note_block rest)
                        end) hs, None).
Proof.
  induction 1 as [| b rest Hb _ IH]; intros note hs; cbn [for_each];
    [reflexivity|].
  rewrite parse_block_unfold. unfold is_note_block, is_label_block in *.
  unfold not_quote in Hb. rewrite Hb. cbn [negb andb snd fst filter].
  rewrite Hb. cbn [negb andb].
  destruct (startswith (first_line b) (py "#")); cbn [bind negb].
  - apply IH.
  - cbn [article_note highlights]. rewrite IH. unfold notes_after.
    cbn [fold_left]. destruct (filter _ rest); reflexivity.
Qed.

Lemma parse_blocks_app (b1 b2 : list str) (st : parser_state) :
  for_each parse_block (b1 ++ b2) st
  = (st1 <- for_each parse_block b1 st ;; for_each parse_block b2 st1).
Proof.
  revert st. induction b1 as [| b b1 IH]; intros st; simpl; [reflexivity|].
  destruct (parse_block b st); simpl; [apply IH | reflexivity].
Qed.

Lemma flush_after_quote (st : parser_state) (h : Highlight) :
  highlights (flush (flush st, Some h)) = highlights (flush st) ++ [h].
Proof. reflexivity. Qed.

(** Once written, the records of the result are never changed: later
    blocks only append. *)
Lemma parse_blocks_append (blocks : list str) :
  forall st st',
    for_each parse_block blocks st = OK st' ->
    exists later, highlights (fst st') = highlights (fst st) ++ later.
Proof.
  induction blocks as [| b blocks IH]; intros st st' H; cbn [for_each] in H.
  - injection H as <-. exists []. rewrite app_nil_r. reflexivity.
  - destruct (parse_block b st) as [st1|] eqn:E1; cbn [bind] in H;
      [|discriminate].
    destruct (IH _ _ H) as (later & ->).
    rewrite parse_block_unfold in E1.
    destruct (is_quote_block b).
    + injection E1 as <-. cbn [fst]. destruct st as [r [h|]];
        unfold flush; cbn [snd fst highlights];
        rewrite <- ?app_assoc; eauto.
    + destruct (is_label_block b); destruct st as [r [h|]];
        cbn [snd fst] in E1; injection E1 as <-;
        cbn [snd fst highlights article_note]; eauto.
Qed.

Lemma flush_highlights (st : parser_state) :
  exists last, highlights (flush st) = highlights (fst st) ++ last.
Proof.
  destruct st as [r [h|]]; unfold flush; cbn [snd fst highlights];
    [eauto | exists []; rewrite app_nil_r; reflexivity].
Qed.

(** The record of a quote block.  If the blocks of the content are [pre],
    then the quote block [q], then blocks [mid] without a quote marker,
    then [post] that is empty or starts with a quote block, the parsed
    list contains, after the records of [pre], the record with the quote
    of [q], the labels of the label blocks of [mid] in order, and the notes
    built from the other blocks of [mid]. *)
Theorem record_of_quote_block (content : str) (pre mid post : list str)
  (q : str)
  (Hblocks : blocks_of content = pre ++ q :: mid ++ post)
  (Hq : is_quote_block q = true)
  (Hmid : Forall not_quote mid)
  (Hpost : post = [] \/ exists q' post', post = q' :: post'
                                        /\ is_quote_block q' = true) :
  exists r earlier later,
    parse_highlights_file (Some content) = OK r
    /\ highlights r
       = earlier
         ++ [mkHighlight (quote_of_lines (lines_of q))
               (map label_of (filter is_label_block mid))
               (notes_after None (filter is_note_block mid))
               None None None None]
         ++ later.
Proof.
  unfold parse_highlights_file. rewrite Hblocks.
  rewrite parse_blocks_app.
  destruct (parse_blocks_quotes pre (mkHighlights None [], None))
    as (st1 & -> & _).
  cbn [bind for_each]. rewrite parse_block_unfold, Hq. cbn [bind].
  rewrite parse_blocks_app, (parse_blocks_current mid Hmid). cbn [bind].
  set (h := mkHighlight _ _ _ _ _ _ _).
  destruct Hpost as [-> | (q' & post' & -> & Hq')].
  - cbn [for_each bind]. eexists _, (highlights (flush st1)), [].
    split; [reflexivity|]. reflexivity.
  - cbn [for_each]. rewrite parse_block_unfold, Hq'. cbn [bind].
    destruct (for_each parse_block post' _) as [st2|] eqn:E2.
    + cbn [bind]. destruct (parse_blocks_append _ _ _ E2) as (later & Hl).
      destruct (flush_highlights st2) as (last & Hlast).
      eexists _, (highlights (flush st1)), (later ++ last).
      split; [reflexivity|].
      rewrite Hlast, Hl. cbn [fst]. rewrite flush_after_quote.
      rewrite <- !app_assoc. reflexivity.
    + destruct (parse_blocks_quotes post'
                  (flush (flush st1, Some h),
                   Some (new_highlight (quote_of_lines (lines_of q')))))
        as (st2 & E & _).
      congruence.
Qed.

Lemma record_of_quote_block_witness :
  exists r earlier later,
    parse_highlights_file
      (Some (py "This is my note." ++ LF ++ LF
             ++ py "> first quoted line" ++ LF ++ py "> second quoted line"
             ++ LF ++ LF ++ py "#important" ++ LF ++ LF
             ++ py "a note about the quote" ++ LF)) = OK r
    /\ highlights r
       = earlier
         ++ [mkHighlight (py "first quoted line" ++ LF
                          ++ py "second quoted line")
               [py "important"] (Some (py "a note about the quote"))
               None None None None]
         ++ later.
Proof.
  apply (record_of_quote_block
           (py "This is my note." ++ LF ++ LF
            ++ py "> first quoted line" ++ LF ++ py "> second quoted line"
            ++ LF ++ LF ++ py "#important" ++ LF ++ LF
            ++ py "a note about the quote" ++ LF)
           [py "This is my note."]
           [py "#important"; py "a note about the quote"] []
           (py "> first quoted line" ++ LF ++ py "> second quoted line")).
  - reflexivity.
  - reflexivity.
  - repeat constructor.
  - left. reflexivity.
Defined.

(** After a record has been opened the article note is not touched. *)
Lemma parse_blocks_keep_note (blocks : list str) :
  forall r h st',
    for_each parse_block blocks (r, Some h) = OK st' ->
    article_note (flush st') = article_note r.
Proof.
  induction blocks as [| b blocks IH]; intros r h st' H; cbn [for_each] in H.
  - injection H as <-. reflexivity.
  - rewrite parse_block_unfold in H. cbn [snd fst] in H.
    destruct (is_quote_block b); [|destruct (is_label_block b)];
      cbn [bind] in H; apply IH in H; exact H.
Qed.

(** The article note is made of the blocks before the first quote block
    that start with neither marker, joined by blank lines; label blocks
    there are dropped; and it is [None] when there is no such block. *)
Theorem article_note_before_first_quote (content : str)
  (pre post : list str)
  (Hblocks : blocks_of content = pre ++ post)
  (Hpre : Forall not_quote pre)
  (Hpost : post = [] \/ exists q post', post = q :: post'
                                       /\ is_quote_block q = true) :
  exists r,
    parse_highlights_file (Some content) = OK r
    /\ article_note r
       = match filter is_note_block pre with
         | [] => None
         | _ :: _ => notes_after None (filter is_note_block pre)
         end
    /\ (post = [] -> highlights r = []).
Proof.
  unfold parse_highlights_file. rewrite Hblocks, parse_blocks_app.
  rewrite (parse_blocks_no_record pre Hpre). cbn [bind].
  destruct Hpost as [-> | (q & post' & -> & Hq)].
  - cbn [for_each bind]. eexists. split; [reflexivity|].
    split; [reflexivity | reflexivity].
  - cbn [for_each]. rewrite parse_block_unfold, Hq. cbn [bind].
    destruct (parse_blocks_quotes post'
                (flush (mkHighlights
                          (match filter is_note_block pre with
                           | [] => None
                           | _ :: _ =>
                               notes_after None (filter is_note_block pre)
                           end) [], None),
                 Some (new_highlight (quote_of_lines (lines_of q)))))
      as (st2 & E2 & _).
    rewrite E2. cbn [bind]. eexists. split; [reflexivity|].
    split; [|discriminate].
    apply parse_blocks_keep_note in E2. exact E2.
Qed.

Lemma article_note_before_first_quote_witness :
  exists r,
    parse_highlights_file
      (Some (py "#dropped" ++ LF ++ LF ++ py "first" ++ LF ++ LF
             ++ py "second" ++ LF ++ LF ++ py "> q")) = OK r
    /\ article_note r = Some (py "first" ++ LF ++ LF ++ py "second").
Proof.
  destruct (article_note_before_first_quote
              (py "#dropped" ++ LF ++ LF ++ py "first" ++ LF ++ LF
               ++ py "second" ++ LF ++ LF ++ py "> q")
              [py "#dropped"; py "first"; py "second"] [py "> q"])
    as (r & Hr & Hnote & _).
  - reflexivity.
  - repeat constructor.
  - right. exists (py "> q"), []. split; reflexivity.
  - exists r. split; [exact Hr | exact Hnote].
Defined.

(** ** process_article_note and process_highlights

    The two functions talk to the server through [api.gql_request].  A
    request is named by the method of [OmnivoreAPI] that builds its body
    and by the arguments given to it; the reply to the search (the list
    under [search.edges], or the exception [gql_request] raises) and the
    replies to the mutations are arguments.  A computation yields the
    requests it sent, in order, and its result. *)

Record RemoteHighlight : Type := mkRemote {
  remote_id : str;
  remote_quote : option str
}.

(** One entry of [all_highlights['search']['edges']]: [x['node']['id']] and
    [x['node']['highlights']]. *)
Record Edge : Type := mkEdge {
  node_id : str;
  node_highlights : list RemoteHighlight
}.

Inductive Request : Type :=
| get_all_highlighted_articles
| update_highlight_mutation (highlight_id annotation : str)
| set_label_for_highlight_mutation (highlight_id : str) (labels : list str)
| create_note_mutation (page_id note : str).

Definition api (A : Type) : Type := list Request * result A.

Definition ret {A} (a : A) : api A := ([], OK a).

Definition raise_of {A} (r : result A) : api A := ([], r).

(** [api.gql_request(request)] with the reply [reply]. *)
Definition gql_request {A} (request : Request) (reply : result A) : api A :=
  ([request], reply).

Definition api_bind {A B} (m : api A) (k : A -> api B) : api B :=
  match m with
  | (sent, OK a) => (sent ++ fst (k a), snd (k a))
  | (sent, Raise e) => (sent, Raise e)
  end.

Fixpoint api_for_each {A} (body : A -> api unit) (l : list A) : api unit :=
  match l with
  | [] => ret tt
  | x :: l' => api_bind (body x) (fun _ => api_for_each body l')
  end.

Definition str_eqb (a b : str) : bool :=
  if list_eq_dec ascii_dec a b then true else false.

Section Api.

Variable ratio_fn : str -> str -> Q.

(** The reply to a mutation; its content is not used. *)
Variable mutation_reply : Request -> result unit.

Definition process_article_note (page_id : str) (article_note : option str)
  : api unit :=
  match article_note with
  | Some (c :: note) =>
      gql_request (create_note_mutation page_id (c :: note))
                  (mutation_reply (create_note_mutation page_id (c :: note)))
  | _ => ret tt
  end.

(** [[x["quote"] for x in page_highlights[0] if x["quote"]]] *)
Definition quotes_of (remote : list RemoteHighlight) : list str :=
  flat_map (fun x => match remote_quote x with
                     | Some (c :: q) => [c :: q]
                     | _ => []
                     end) remote.

Definition has_quote (closest_match : str) (x : RemoteHighlight) : bool :=
  match remote_quote x with
  | Some q => str_eqb q closest_match
  | None => false
  end.

(** The body of [for highlight in highlights_data["highlights"]]. *)
Definition annotate (remote : list RemoteHighlight) (highlight : Highlight)
  : api unit :=
  let highlight_quotes := quotes_of remote in
  api_bind (raise_of (find_closest_match ratio_fn (quote highlight)
                                         highlight_quotes))
    (fun closest_match =>
       match filter (has_quote closest_match) remote with
       | [] => ret tt
       | found :: _ =>
           api_bind
             (match notes highlight with
              | Some (c :: n) =>
                  gql_request
                    (update_highlight_mutation (remote_id found) (c :: n))
                    (mutation_reply
                       (update_highlight_mutation (remote_id found) (c :: n)))
              | _ => ret tt
              end)
             (fun _ =>
                match labels highlight with
                | _ :: _ =>
                    gql_request
                      (set_label_for_highlight_mutation (remote_id found)
                                                        (labels highlight))
                      (mutation_reply
                         (set_label_for_highlight_mutation
                            (remote_id found) (labels highlight)))
                | [] => ret tt
                end)
       end).

Definition process_highlights (search_reply : result (list Edge))
  (page_id : str) (highlights_data : option Highlights) : api unit :=
  match highlights_data with
  | None => ret tt
  | Some data =>
      match highlights data with
      | [] => ret tt
      | _ :: _ =>
          api_bind (gql_request get_all_highlighted_articles search_reply)
            (fun edges =>
               let page_highlights :=
                 map node_highlights
                     (filter (fun x => str_eqb (node_id x) page_id) edges) in
               match page_highlights with
               | [] => ret tt
               | first :: _ =>
                   api_for_each (annotate first) (highlights data)
               end)
      end
  end.

End Api.

Lemma str_eqb_refl (a : str) : str_eqb a a = true.
Proof. unfold str_eqb. destruct (list_eq_dec ascii_dec a a); congruence. Qed.

Lemma in_quotes_of (remote : list RemoteHighlight) (q : str) :
  In q (quotes_of remote) ->
  exists x, In x remote /\ remote_quote x = Some q /\ q <> [].
Proof.
  unfold quotes_of. intros H. apply in_flat_map in H.
  destruct H as (x & Hx & Hq). exists x. split; [exact Hx|].
  destruct (remote_quote x) as [[| c s]|]; simpl in Hq; try contradiction.
  destruct Hq as [<- | []]. split; [reflexivity | discriminate].
Qed.

(** The request a mutation of a highlight is addressed to. *)
Definition target (request : Request) : option str :=
  match request with
  | update_highlight_mutation highlight_id _ => Some highlight_id
  | set_label_for_highlight_mutation highlight_id _ => Some highlight_id
  | _ => None
  end.

Definition has_notes (h : Highlight) : bool := truthy_str (notes h).

Definition has_labels (h : Highlight) : bool :=
  match labels h with
  | [] => false
  | _ :: _ => true
  end.

Section Api_facts.

Variable ratio_fn : str -> str -> Q.
Variable mutation_reply : Request -> result unit.

Definition addressed_to (remote : list RemoteHighlight) (request : Request)
  : Prop :=
  exists x, In x remote /\ target request = Some (remote_id x)
            /\ exists q, remote_quote x = Some q /\ q <> [].

(** One highlight, when nothing is raised: there was a remote quote, the
    [continue] branch was not taken, and one mutation was sent for the
    notes and one for the labels, if there are any, both to a remote
    highlight with a quote. *)
Lemma annotate_sent (remote : list RemoteHighlight) (h : Highlight)
  (sent : list Request) :
  annotate ratio_fn mutation_reply remote h = (sent, OK tt) ->
  length sent
  = ((if has_notes h then 1 else 0) + (if has_labels h then 1 else 0))%nat
  /\ Forall (addressed_to remote) sent.
Proof.
  unfold annotate.
  destruct (quotes_of remote) as [| c rest] eqn:Eq;
    [cbn; discriminate|].
  cbn [find_closest_match raise_of api_bind].
  set (best := max_by _ c rest).
  assert (Hbest : In best (c :: rest)).
  { destruct (max_by_first_maximum
                (fun x => similarity ratio_fn (quote h) x) rest c [] [])
      as (pre & post & Heq & _); [intros x [] | intros x [] |].
    simpl in Heq. fold best in Heq. rewrite Heq.
    apply in_or_app. right. left. reflexivity. }
  rewrite <- Eq in Hbest. apply in_quotes_of in Hbest.
  destruct Hbest as (x & Hx & Hq & Hne).
  assert (Hfilter : In x (filter (has_quote best) remote)).
  { apply filter_In. split; [exact Hx|]. unfold has_quote.
    rewrite Hq. apply str_eqb_refl. }
  destruct (filter (has_quote best) remote) as [| found others] eqn:Ef;
    [contradiction|].
  assert (Hfound : In found remote /\ has_quote best found = true).
  { apply filter_In. rewrite Ef. left. reflexivity. }
  destruct Hfound as [Hin Hhas].
  assert (Haddr : forall req,
             target req = Some (remote_id found) -> addressed_to remote req).
  { intros req Hreq. exists found. split; [exact Hin|]. split; [exact Hreq|].
    unfold has_quote in Hhas. destruct (remote_quote found) as [q|];
      [|discriminate].
    exists q. split; [reflexivity|]. unfold str_eqb in Hhas.
    destruct (list_eq_dec ascii_dec q best); [congruence | discriminate]. }
  unfold has_notes, has_labels, truthy_str, gql_request, ret, api_bind.
  cbn [app fst snd].
  destruct (notes h) as [[| a n]|]; destruct (labels h) as [| l ls];
    repeat match goal with
           | |- context [mutation_reply ?r] =>
               destruct (mutation_reply r) as [[]|]
           end;
    cbn [app fst snd]; intros H; try discriminate;
    injection H as <-; split; try reflexivity;
    repeat constructor; apply Haddr; reflexivity.
Qed.

Lemma annotate_all_sent (remote : list RemoteHighlight)
  (hs : list Highlight) :
  forall sent,
    api_for_each (annotate ratio_fn mutation_reply remote) hs = (sent, OK tt) ->
    length sent
    = (length (filter has_notes hs) + length (filter has_labels hs))%nat
    /\ Forall (addressed_to remote) sent.
Proof.
  induction hs as [| h hs IH]; intros sent H; cbn [api_for_each] in H.
  - injection H as <-. split; [reflexivity | constructor].
  - unfold api_bind in H.
    destruct (annotate ratio_fn mutation_reply remote h) as [s1 [[]|]] eqn:E1;
      [|discriminate].
    destruct (api_for_each _ hs) as [s2 r2] eqn:E2. cbn [fst snd] in H.
    injection H as <- ->.
    destruct (annotate_sent _ _ _ E1) as [L1 F1].
    destruct (IH s2 eq_refl) as [L2 F2].
    split; [|apply Forall_app; split; assumption].
    rewrite length_app, L1, L2. cbn [filter].
    destruct (has_notes h); destruct (has_labels h); simpl; lia.
Qed.

End Api_facts.

(** When the page is among the search results but its highlights have no
    non-empty quote, [process_highlights] raises the [ValueError] of
    [find_closest_match] after the search and before any mutation. *)
Theorem process_highlights_without_remote_quotes
  (ratio_fn : str -> str -> Q) (mutation_reply : Request -> result unit)
  (edges others : list Edge) (page : Edge) (page_id : str)
  (data : Highlights)
  (Hpage : filter (fun x => str_eqb (node_id x) page_id) edges
           = page :: others)
  (Hquotes : quotes_of (node_highlights page) = [])
  (Hlocal : highlights data <> []) :
  process_highlights ratio_fn mutation_reply (OK edges) page_id (Some data)
  = ([get_all_highlighted_articles],
     Raise (ValueError (py "Candidates list cannot be empty"))).
Proof.
  unfold process_highlights.
  destruct (highlights data) as [| h hs]; [congruence|].
  cbn [gql_request api_bind]. rewrite Hpage. cbn [map api_for_each].
  unfold annotate. rewrite Hquotes. reflexivity.
Qed.

Lemma process_highlights_without_remote_quotes_witness :
  process_highlights Difflib.ratio (fun _ => OK tt)
    (OK [mkEdge (py "page") [mkRemote (py "h1") None]]) (py "page")
    (Some (mkHighlights None [new_highlight (py "a quote")]))
  = ([get_all_highlighted_articles],
     Raise (ValueError (py "Candidates list cannot be empty"))).
Proof.
  apply (process_highlights_without_remote_quotes Difflib.ratio
           (fun _ => OK tt) [mkEdge (py "page") [mkRemote (py "h1") None]]
           [] (mkEdge (py "page") [mkRemote (py "h1") None]) (py "page")
           (mkHighlights None [new_highlight (py "a quote")])).
  - reflexivity.
  - reflexivity.
  - discriminate.
Defined.

(** When [process_highlights] returns for a page that is among the search
    results, it sent the search and then one mutation for every local
    highlight with notes and one for every local highlight with labels,
    each addressed to a highlight of the page that has a quote: no local
    highlight is skipped. *)
Theorem process_highlights_mutations
  (ratio_fn : str -> str -> Q) (mutation_reply : Request -> result unit)
  (edges others : list Edge) (page : Edge) (page_id : str)
  (data : Highlights) (sent : list Request)
  (Hpage : filter (fun x => str_eqb (node_id x) page_id) edges
           = page :: others)
  (Hlocal : highlights data <> [])
  (Hrun : process_highlights ratio_fn mutation_reply (OK edges) page_id
            (Some data) = (sent, OK tt)) :
  exists mutations,
    sent = get_all_highlighted_articles :: mutations
    /\ length mutations
       = (length (filter has_notes (highlights data))
          + length (filter has_labels (highlights data)))%nat
    /\ Forall (addressed_to (node_highlights page)) mutations.
Proof.
  unfold process_highlights in Hrun.
  destruct (highlights data) as [| h hs] eqn:Eh; [congruence|].
  cbn [gql_request api_bind] in Hrun. rewrite Hpage in Hrun.
  cbn [map] in Hrun.
  destruct (api_for_each _ (h :: hs)) as [s r] eqn:E. cbn [fst snd app] in Hrun.
  injection Hrun as <- ->. exists s. split; [reflexivity|].
  exact (annotate_all_sent ratio_fn mutation_reply _ _ _ E).
Qed.

Lemma process_highlights_mutations_witness :
  exists mutations,
    [get_all_highlighted_articles;
     update_highlight_mutation (py "h1") (py "my note");
     set_label_for_highlight_mutation (py "h1") [py "todo"]]
    = get_all_highlighted_articles :: mutations
    /\ length mutations = 2%nat.
Proof.
  destruct (process_highlights_mutations Difflib.ratio (fun _ => OK tt)
              [mkEdge (py "page") [mkRemote (py "h1") (Some (py "A quote"))]]
              [] (mkEdge (py "page") [mkRemote (py "h1") (Some (py "A quote"))])
              (py "page")
              (mkHighlights None
                 [mkHighlight (py "a quote") [py "todo"] (Some (py "my note"))
                              None None None None])
              [get_all_highlighted_articles;
               update_highlight_mutation (py "h1") (py "my note");
               set_label_for_highlight_mutation (py "h1") [py "todo"]])
    as (mutations & Hsent & Hlen & _).
  - reflexivity.
  - discriminate.
  - vm_compute. reflexivity.
  - exists mutations. split; [exact Hsent | exact Hlen].
Defined.

(** A note file that is missing, empty or blank leads to no note request:
    its article note is [None] or [''], and [process_article_note] sends
    nothing for either. *)
Theorem blank_note_file_sends_no_note
  (mutation_reply : Request -> result unit) (page_id : str)
  (file : option str)
  (Hblank : match file with
            | Some content => forallb isspace content = true
            | None => True
            end) :
  exists r,
    parse_highlights_file file = OK r
    /\ process_article_note mutation_reply page_id (article_note r)
       = ([], OK tt).
Proof.
  destruct file as [content|].
  - unfold parse_highlights_file, blocks_of.
    rewrite (strip_blank _ Hblank). eexists. split; reflexivity.
  - eexists. split; reflexivity.
Qed.

Lemma blank_note_file_sends_no_note_witness :
  exists r,
    parse_highlights_file (Some (py " ")) = OK r
    /\ process_article_note (fun _ => OK tt) (py "page") (article_note r)
       = ([], OK tt).
Proof.
  apply (blank_note_file_sends_no_note (fun _ => OK tt) (py "page")
           (Some (py " "))).
  reflexivity.
Defined.
